(** * VerilatorLinter: the stderr parser of [src/linter/VerilatorLinter.ts]

    A shallow embedding of the callback that [lint] hands to [child.exec]:
    the split of [stderr] into lines, the per-line loop with its regular
    expressions, the [filesDiag] map and the final publication into the
    [DiagnosticCollection].

    Conventions of the model.
    - A JavaScript string is a [string] of 8-bit code units; the character
      classes are written out for that range as ECMAScript defines them.
    - A JavaScript number is [num]: an integer, [NaN] or
      [Number.MAX_VALUE].  [Int z] carries the integer that the code's
      arithmetic denotes; it is the double of the running program as long
      as the integers involved stay below 2^53.  A statement that needs the
      two to agree (a sum that is strictly larger, a value read off a
      run of digits) bounds the digits it speaks of.
    - [vscode.Position], [vscode.Range], [vscode.Location] and
      [vscode.DiagnosticRelatedInformation] belong to the editor API, not to
      this repository: they are plain records here.  The constructor of a
      position throws for a negative line or character; the pass does not
      catch it, so it ends the callback like the [TypeError] of a header
      that the pattern does not match.
    - The collection is indexed by the path handed to [vscode.Uri.file]:
      [Uri_file] stands for the call, not for the URI the editor makes of
      the path.
    - [this.logger] is the passthrough sink: a call [logger.error(line)] or
      [logger.warn(line)] appends one entry to the log. *)

From Stdlib Require Import ZArith Ascii String List Bool Lia.
From stdpp Require Import gmap strings list fin_maps.
Import ListNotations.

Local Open Scope string_scope.
Local Open Scope Z_scope.

(** ** Regular expressions *)

Module Regex.

(** The atoms the four patterns of the linter are written with. *)
Inductive cclass : Type :=
| Lit (a : ascii)      (* a literal character, escaped or not *)
| AnyChar              (* .   *)
| Space                (* \s  *)
| NonSpace             (* \S  *)
| Word                 (* \w  *)
| Digit                (* \d  *)
| UpperDigit.          (* [A-Z0-9] *)

Definition in_range (lo hi : nat) (a : ascii) : bool :=
  (Nat.leb lo (nat_of_ascii a) && Nat.leb (nat_of_ascii a) hi)%bool.

Definition is_digit (a : ascii) : bool := in_range 48 57 a.
Definition is_upper (a : ascii) : bool := in_range 65 90 a.
Definition is_lower (a : ascii) : bool := in_range 97 122 a.

(** WhiteSpace and LineTerminator code units below 256. *)
Definition is_space (a : ascii) : bool :=
  (in_range 9 13 a || Nat.eqb (nat_of_ascii a) 32
   || Nat.eqb (nat_of_ascii a) 160)%bool.

Definition is_line_terminator (a : ascii) : bool :=
  (Nat.eqb (nat_of_ascii a) 10 || Nat.eqb (nat_of_ascii a) 13)%bool.

Definition cmatch (c : cclass) (a : ascii) : bool :=
  match c with
  | Lit b => Ascii.eqb a b
  | AnyChar => negb (is_line_terminator a)
  | Space => is_space a
  | NonSpace => negb (is_space a)
  | Word => (is_digit a || is_upper a || is_lower a
             || Nat.eqb (nat_of_ascii a) 95)%bool
  | Digit => is_digit a
  | UpperDigit => (is_upper a || is_digit a)%bool
  end.

Inductive regex : Type :=
| Eps
| Chr (c : cclass)
| Seq (r1 r2 : regex)
| Alt (r1 r2 : regex)        (* r1|r2, left alternative first *)
| Star (r : regex)           (* r*, greedy *)
| Named (name : string) (r : regex).   (* (?<name>r) *)

(** Unnamed groups are never read by the linter and carry no capture. *)
Definition Plus (r : regex) : regex := Seq r (Star r).
Definition Opt (r : regex) : regex := Alt r Eps.

Fixpoint Str (s : string) : regex :=
  match s with
  | EmptyString => Eps
  | String a s' => Seq (Chr (Lit a)) (Str s')
  end.

Fixpoint seqs (rs : list regex) : regex :=
  match rs with
  | [] => Eps
  | [r] => r
  | r :: rs' => Seq r (seqs rs')
  end.

Fixpoint alts (r : regex) (rs : list regex) : regex :=
  match rs with
  | [] => r
  | r' :: rs' => Alt r (alts r' rs')
  end.

Abbreviation captures := (gmap string string).

(** The text consumed between two suffixes of the same input. *)
Definition consumed (s s' : string) : string :=
  substring 0 (String.length s - String.length s') s.

(** Backtracking matcher in continuation-passing style: [k] receives the
    rest of the input and the captures, and a [None] from it makes the
    matcher try its next choice.  An iteration of [Star] that consumes
    nothing is rejected, as the RepeatMatcher of ECMAScript does. *)
Fixpoint rmatch {A : Type} (r : regex) (s : string) (g : captures)
    (k : string -> captures -> option A) {struct r} : option A :=
  match r with
  | Eps => k s g
  | Chr c =>
      match s with
      | String a s' => if cmatch c a then k s' g else None
      | EmptyString => None
      end
  | Seq r1 r2 => rmatch r1 s g (fun s' g' => rmatch r2 s' g' k)
  | Alt r1 r2 =>
      match rmatch r1 s g k with
      | Some x => Some x
      | None => rmatch r2 s g k
      end
  | Star r1 =>
      (fix loop (n : nat) (s : string) (g : captures) {struct n} : option A :=
         match n with
         | O => k s g
         | S n' =>
             match rmatch r1 s g
                     (fun s' g' =>
                        if Nat.ltb (String.length s') (String.length s)
                        then loop n' s' g' else None) with
             | Some x => Some x
             | None => k s g
             end
         end) (String.length s) s g
  | Named name r1 =>
      rmatch r1 s g (fun s' g' => k s' (<[name := consumed s s']> g'))
  end.

(** What [exec] returns: [matched] is [rex[0]], [groups] is [rex.groups]. *)
Record result : Type := Result { matched : string; groups : captures }.

Definition match_here (r : regex) (s : string) : option result :=
  rmatch r s ∅ (fun s' g => Some (Result (consumed s s') g)).

(** [r.exec(s)] with [lastIndex = 0]: the leftmost start position that
    matches; [None] is JavaScript's [null]. *)
Fixpoint exec (r : regex) (s : string) : option result :=
  match match_here r s with
  | Some m => Some m
  | None =>
      match s with
      | EmptyString => None
      | String _ s' => exec r s'
      end
  end.

Definition test (r : regex) (s : string) : bool :=
  match exec r s with Some _ => true | None => false end.

End Regex.

(** ** The four patterns of the linter *)

Module Patterns.
Import Regex.

Definition ch (a : ascii) : regex := Chr (Lit a).

(** [(\S| )+] *)
Definition pathChars : regex := Plus (Alt (Chr NonSpace) (ch " ")).

(** [(?<fileExtension>(\.svh)|(\.sv)|(\.SV)|(\.vh)|(\.vl)|(\.v))] *)
Definition fileExtension : regex :=
  Named "fileExtension"
    (alts (Str ".svh") [Str ".sv"; Str ".SV"; Str ".vh"; Str ".vl"; Str ".v"]).

(** [(?<filePath>(\S| )+(?<fileExtension>...))] *)
Definition filePath : regex := Named "filePath" (Seq pathChars fileExtension).

(** Lines 163-185:
    [%(?<severity>\w+)(-(?<errorCode>[A-Z0-9]+))?: ]
    [((?<filePath>...):((?<lineNumber>\d+):)?((?<columnNumber>\d+):)? )?]
    followed by the group verboseError, any run of [.] *)
Definition errorParserRegex : regex :=
  seqs [ ch "%"; Named "severity" (Plus (Chr Word));
         Opt (Seq (ch "-") (Named "errorCode" (Plus (Chr UpperDigit))));
         Str ": ";
         Opt (seqs [ filePath; ch ":";
                     Opt (Seq (Named "lineNumber" (Plus (Chr Digit))) (ch ":"));
                     Opt (Seq (Named "columnNumber" (Plus (Chr Digit))) (ch ":"));
                     ch " " ]);
         Named "verboseError" (Star (Chr AnyChar)) ].

(** Line 232: [\s+: \.\.\. (?<verboseError>(\S| )+)] *)
Definition topRelatedInfoRegex : regex :=
  seqs [ Plus (Chr Space); Str ": ... "; Named "verboseError" pathChars ].

(** Line 257: a bar, [\s+], then the group highlight: a caret and any
    run of tildes. *)
Definition highlightRegex : regex :=
  seqs [ ch "|"; Plus (Chr Space);
         Named "highlight" (Seq (ch "^") (Star (ch "~"))) ].

(** Line 305:
    [\s+((?<filePath>...):(?<lineNumber>\d+):(?<columnNumber>\d+):)?]
    [ \.\.\. (?<verboseError>(\S| )+)] *)
Definition bottomMessageRegex : regex :=
  seqs [ Plus (Chr Space);
         Opt (seqs [ filePath; ch ":";
                     Named "lineNumber" (Plus (Chr Digit)); ch ":";
                     Named "columnNumber" (Plus (Chr Digit)); ch ":" ]);
         Str " ... "; Named "verboseError" pathChars ].

End Patterns.

(** ** JavaScript values the linter computes with *)

Inductive num : Type :=
| NaN
| Int (z : Z)
| MAX_VALUE.                  (* Number.MAX_VALUE *)

Definition isNaN (n : num) : bool :=
  match n with NaN => true | _ => false end.

(** [n + k] and [n - 1] for an integer [k]; [MAX_VALUE] absorbs both. *)
Definition num_add (n : num) (k : Z) : num :=
  match n with
  | Int z => Int (z + k)
  | other => other
  end.

Definition digit_value (a : ascii) : Z := Z.of_nat (nat_of_ascii a) - 48.

Fixpoint digits_value (acc : Z) (s : string) : num :=
  match s with
  | EmptyString => Int acc
  | String a s' =>
      if Regex.is_digit a then digits_value (10 * acc + digit_value a) s'
      else NaN
  end.

(** [Number(v)] for a capture group: [undefined] gives [NaN], a run of
    decimal digits its value. *)
Definition Number (v : option string) : num :=
  match v with
  | None => NaN
  | Some s => digits_value 0 s
  end.

(** [!v] is false exactly for a defined, non-empty string. *)
Definition truthy (v : option string) : option string :=
  match v with
  | Some (String a s) => Some (String a s)
  | _ => None
  end.

Fixpoint startsWith (p s : string) : bool :=
  match p, s with
  | EmptyString, _ => true
  | String a p', String b s' => (Ascii.eqb a b && startsWith p' s')%bool
  | String _ _, EmptyString => false
  end.

(** [stderr.split(/\r?\n/g)]: [cur] is the line being read.  The result
    is never empty: the empty text gives one empty line. *)
Fixpoint splitLines (cur : string) (s : string) : list string :=
  match s with
  | EmptyString => [cur]
  | String "010" s' => cur :: splitLines EmptyString s'
  | String "013" (String "010" s') => cur :: splitLines EmptyString s'
  | String a s' => splitLines (cur ++ String a EmptyString) s'
  end.

Definition split_lines (stderr : string) : list string :=
  splitLines EmptyString stderr.

(** [p.replace(/(\\\\)|(\\)/g, "/")]: a pair of backslashes, else a single
    one, becomes one slash. *)
Fixpoint replaceBackslashes (s : string) : string :=
  match s with
  | EmptyString => EmptyString
  | String "\" (String "\" s') => String "/" (replaceBackslashes s')
  | String "\" s' => String "/" (replaceBackslashes s')
  | String a s' => String a (replaceBackslashes s')
  end.

(** ** The editor's data types *)

Inductive DiagnosticSeverity : Type := Error | Warning | Information.

Record Position : Type := mkPosition { line : num; character : num }.
Record Range : Type := mkRange { start : Position; end_ : Position }.

(** [new vscode.Range(startLine, startCharacter, endLine, endCharacter)],
    when its two positions can be built. *)
Definition Range4 (sl sc el ec : num) : Range :=
  mkRange (mkPosition sl sc) (mkPosition el ec).

(** [n < 0]: false for [NaN] and for [Number.MAX_VALUE]. *)
Definition negative (n : num) : bool :=
  match n with
  | Int z => z <? 0
  | _ => false
  end.

(** [new vscode.Position(line, character)] throws for a negative line or
    character. *)
Definition Position_throws (l c : num) : bool :=
  (negative l || negative c)%bool.

(** [new vscode.Range(sl, sc, el, ec)] builds its start, then its end. *)
Definition Range4_throws (sl sc el ec : num) : bool :=
  (Position_throws sl sc || Position_throws el ec)%bool.

Record Location : Type := mkLocation { uri : string; range : Range }.

Record DiagnosticRelatedInformation : Type :=
  mkRelated { location : Location; rmessage : option string }.

Record Diagnostic : Type := mkDiagnostic {
  severity : DiagnosticSeverity;
  drange : Range;
  message : option string;
  source : string;
  code : option string;
  relatedInformation : list DiagnosticRelatedInformation
}.

(** [vscode.Uri.file(path)], named by the path it is called with. *)
Definition Uri_file (path : string) : string := path.

(** Lines 54-61. *)
Definition convertToSeverity (severityString : string) : DiagnosticSeverity :=
  if startsWith "Error" severityString then Error
  else if startsWith "Warning" severityString then Warning
  else Information.

(** ** The stderr callback of [lint] (lines 111-453) *)

Module Lint.
Import Regex Patterns.
Local Open Scope list_scope.

(** A map from file to diagnostics: [filesDiag], and the collection. *)
Abbreviation DiagnosticSet := (gmap string (list Diagnostic)).

(** One call of the passthrough sink: [logger.error] or [logger.warn]. *)
Inductive level : Type := LogError | LogWarn.
Definition LogEntry : Type := (level * string)%type.

(** [rex.groups[name]]: [None] is [undefined]. *)
Definition group (rex : result) (name : string) : option string :=
  groups rex !! name.

(** The length of a group that is read with [.length]; the groups it is
    applied to are set by every match (see [RegexFacts.highlight_group]). *)
Definition group_length (rex : result) (name : string) : Z :=
  Z.of_nat (String.length (default EmptyString (group rex name))).

(** State of the pass: what was logged so far and [filesDiag]. *)
Record State : Type := mkState {
  logged : list LogEntry;
  filesDiag : DiagnosticSet
}.

Definition log (lv : level) (text : string) (st : State) : State :=
  mkState (logged st ++ [(lv, text)]) (filesDiag st).

(** The callback of [forEach] either returns or throws: a [TypeError]
    when [rex] is [null] (line 191), the error of a position with a
    negative line or character when a range cannot be built.  What is
    thrown carries what had been logged before it. *)
Inductive outcome (A : Type) : Type :=
| Returns (a : A)
| TypeError (sofar : list LogEntry)
| IllegalArgument (sofar : list LogEntry).
Arguments Returns {A} a.
Arguments TypeError {A} sofar.
Arguments IllegalArgument {A} sofar.

(** Lines 122-138: the backward scan for the last message type, from
    [lineIndex = currentLineNumber] down to 0. *)
Fixpoint lastDiagMessageType (stderrLines : list string) (lineIndex : nat)
    : string :=
  let here := default EmptyString (stderrLines !! lineIndex) in
  if startsWith "%Error" here then "Error"
  else if startsWith "%Warning" here then "Warning"
  else match lineIndex with
       | O => "Error"
       | S below => lastDiagMessageType stderrLines below
       end.

(** Lines 236-253: the run of additional messages right after the
    header; [rest] is [stderrLines] from [currentLineNumber + 1] on. *)
Fixpoint relatedInfoMsg (rest : list string) : list (option string) :=
  match rest with
  | [] => []
  | additionalMessageLine :: rest' =>
      match exec topRelatedInfoRegex additionalMessageLine with
      | None => []
      | Some m => group m "verboseError" :: relatedInfoMsg rest'
      end
  end.

(** Lines 226 and 270-289: the end column, from the first highlight
    found before the next line that starts with [%]. *)
Fixpoint endColNum (colNum : num) (rest : list string) : num :=
  match rest with
  | [] => MAX_VALUE
  | currentTestLine :: rest' =>
      if startsWith "%" currentTestLine then MAX_VALUE
      else match exec highlightRegex currentTestLine with
           | Some m => num_add colNum (group_length m "highlight")
           | None => endColNum colNum rest'
           end
  end.

(** What the bottom-message loop reads of the main message. *)
Record Header : Type := mkHeader {
  hFile : string;        (* rex.groups["filePath"] *)
  hLine : num;           (* lineNum *)
  hCol : num;            (* colNum *)
  hEnd : num             (* endColNum *)
}.

Definition headerRange (h : Header) : Range :=
  Range4 (hLine h) (hCol h) (hLine h) (hEnd h).

(** Lines 338-361: the location of a bottom message. *)
Definition currentMessageLocation (h : Header) (matched : result) : Location :=
  match truthy (group matched "filePath") with
  | Some file =>
      mkLocation (Uri_file file)
        (Range4 (num_add (Number (group matched "lineNumber")) (-1))
                (num_add (Number (group matched "columnNumber")) (-1))
                (num_add (Number (group matched "lineNumber")) (-1))
                MAX_VALUE)
  | None => mkLocation (Uri_file (hFile h)) (headerRange h)
  end.

(** Lines 346-351 and 358: the constructor of that range throws. *)
Definition currentMessageLocationThrows (h : Header) (matched : result)
    : bool :=
  match truthy (group matched "filePath") with
  | Some _ =>
      Range4_throws (num_add (Number (group matched "lineNumber")) (-1))
                    (num_add (Number (group matched "columnNumber")) (-1))
                    (num_add (Number (group matched "lineNumber")) (-1))
                    MAX_VALUE
  | None => Range4_throws (hLine h) (hCol h) (hLine h) (hEnd h)
  end.

(** Lines 363-369. *)
Definition bottomMessage (h : Header) (matched : result)
    : DiagnosticRelatedInformation :=
  mkRelated (currentMessageLocation h matched) (group matched "verboseError").

(** Lines 375-393: the range of a message after a highlight of
    [len] characters. *)
Definition newRange (r : Range) (len : Z) : Range :=
  let newStart := start r in
  mkRange newStart (mkPosition (line newStart) (num_add (character newStart) len)).

Definition withNewRange (len : Z) (m : DiagnosticRelatedInformation)
    : DiagnosticRelatedInformation :=
  mkRelated (mkLocation (uri (location m)) (newRange (range (location m)) len))
            (rmessage m).

(** [bottomMessages[bottomMessages.length - 1].location.range = newRange] *)
Fixpoint updateLast (len : Z) (ms : list DiagnosticRelatedInformation)
    : list DiagnosticRelatedInformation :=
  match ms with
  | [] => []
  | [m] => [withNewRange len m]
  | m :: ms' => m :: updateLast len ms'
  end.

(** Lines 317-394: one iteration of the bottom-message loop on a line
    that does not start with [%].  [isBottomHighlight] is computed before
    the push, from the messages of the earlier lines. *)
Definition bottomStep (h : Header) (currentTestLine : string)
    (bottomMessages : list DiagnosticRelatedInformation)
    : list DiagnosticRelatedInformation :=
  let isBottomHighlight :=
    (Nat.ltb 0 (List.length bottomMessages)
     && test highlightRegex currentTestLine)%bool in
  let pushed :=
    match exec bottomMessageRegex currentTestLine with   (* isBottomMessage *)
    | Some matched => bottomMessages ++ [bottomMessage h matched]
    | None => bottomMessages
    end in
  if isBottomHighlight then
    match exec highlightRegex currentTestLine with
    | Some m => updateLast (group_length m "highlight") pushed
    | None => pushed
    end
  else pushed.

(** The same iteration, for what it throws: the range of the message it
    pushes (lines 346-358), then the position at the end of the highlight
    (lines 379-382). *)
Definition bottomStepThrows (h : Header) (currentTestLine : string)
    (bottomMessages : list DiagnosticRelatedInformation) : bool :=
  let isBottomHighlight :=
    (Nat.ltb 0 (List.length bottomMessages)
     && test highlightRegex currentTestLine)%bool in
  match exec bottomMessageRegex currentTestLine with
  | Some matched =>
      if currentMessageLocationThrows h matched then true
      else if isBottomHighlight then
        match exec highlightRegex currentTestLine with
        | Some m =>
            let newStart := start (range (location (bottomMessage h matched))) in
            Position_throws (line newStart)
              (num_add (character newStart) (group_length m "highlight"))
        | None => false
        end
      else false
  | None =>
      if isBottomHighlight then
        match exec highlightRegex currentTestLine, last bottomMessages with
        | Some m, Some lastMessage =>
            let newStart := start (range (location lastMessage)) in
            Position_throws (line newStart)
              (num_add (character newStart) (group_length m "highlight"))
        | _, _ => false
        end
      else false
  end.

(** Lines 310-395. *)
Fixpoint bottomLoop (h : Header) (rest : list string)
    (bottomMessages : list DiagnosticRelatedInformation)
    : list DiagnosticRelatedInformation :=
  match rest with
  | [] => bottomMessages
  | currentTestLine :: rest' =>
      if startsWith "%" currentTestLine then bottomMessages
      else bottomLoop h rest' (bottomStep h currentTestLine bottomMessages)
  end.

(** Lines 310-395, for what the loop throws. *)
Fixpoint bottomLoopThrows (h : Header) (rest : list string)
    (bottomMessages : list DiagnosticRelatedInformation) : bool :=
  match rest with
  | [] => false
  | currentTestLine :: rest' =>
      if startsWith "%" currentTestLine then false
      else if bottomStepThrows h currentTestLine bottomMessages then true
      else bottomLoopThrows h rest' (bottomStep h currentTestLine bottomMessages)
  end.

(** Lines 402-434: the diagnostic of the main message.  It is pushed into
    [filesDiag] before [relatedInformation] is filled in, but it is the
    same object, so the array holds it with the final list. *)
Definition mainMessageDiag (rex : result) (h : Header)
    (bottomMessages : list DiagnosticRelatedInformation)
    (related : list (option string)) : Diagnostic :=
  let currentMsgLocation := mkLocation (Uri_file (hFile h)) (headerRange h) in
  mkDiagnostic
    (convertToSeverity (default EmptyString (group rex "severity")))
    (headerRange h)
    (group rex "verboseError")
    "verilator"
    (group rex "errorCode")
    (bottomMessages ++ map (mkRelated currentMsgLocation) related).

(** [filesDiag.get(file).push(d)] *)
Definition pushDiag (file : string) (d : Diagnostic)
    (fd : DiagnosticSet) : DiagnosticSet :=
  <[file := default [] (fd !! file) ++ [d]]> fd.

(** Lines 214-217. *)
Definition ensureFile (file : string) (fd : DiagnosticSet)
    : DiagnosticSet :=
  match fd !! file with
  | Some _ => fd
  | None => <[file := []]> fd
  end.

(** Lines 221-224: [lineNum] and [colNum], made 0-based; a missing
    column is 0. *)
Definition lineNum (rex : result) : num :=
  num_add (Number (group rex "lineNumber")) (-1).

Definition colNum (rex : result) : num :=
  let c := num_add (Number (group rex "columnNumber")) (-1) in
  if isNaN c then Int 0 else c.

(** Lines 221-434 up to the test of line 409: the diagnostic built for
    the header at [currentLineNumber]. *)
Definition headerOf (stderrLines : list string) (currentLineNumber : nat)
    (rex : result) (file : string) : Header :=
  mkHeader file (lineNum rex) (colNum rex)
           (endColNum (colNum rex) (drop (S currentLineNumber) stderrLines)).

Definition diagnosticOf (stderrLines : list string) (currentLineNumber : nat)
    (rex : result) (file : string) : Diagnostic :=
  let rest := drop (S currentLineNumber) stderrLines in
  let h := headerOf stderrLines currentLineNumber rex file in
  mainMessageDiag rex h (bottomLoop h rest []) (relatedInfoMsg rest).

(** Lines 310-407: a range of the visit cannot be built, in the loop of
    the bottom messages or for the diagnostic itself (lines 402-407, which
    come before the test of [lineNum] at line 409). *)
Definition visitThrows (stderrLines : list string) (currentLineNumber : nat)
    (rex : result) (file : string) : bool :=
  let rest := drop (S currentLineNumber) stderrLines in
  let h := headerOf stderrLines currentLineNumber rex file in
  (bottomLoopThrows h rest []
   || Range4_throws (hLine h) (hCol h) (hLine h) (hEnd h))%bool.

(** Lines 220-436: a header whose [filePath] is present; [None] when a
    range of the visit cannot be built. *)
Definition structured (stderrLines : list string) (currentLineNumber : nat)
    (rex : result) (file : string) (fd : DiagnosticSet)
    : option DiagnosticSet :=
  if Nat.ltb 0 (String.length (matched rex)) then
    if visitThrows stderrLines currentLineNumber rex file then None
    else if isNaN (lineNum rex) then Some fd
    else Some (pushDiag file (diagnosticOf stderrLines currentLineNumber rex file) fd)
  else Some fd.

(** Lines 116-438: the body of the [forEach] callback. *)
Definition lintLine (isWindows : bool) (stderrLines : list string)
    (currentLineNumber : nat) (line : string) (st : State) : outcome State :=
  let last := lastDiagMessageType stderrLines currentLineNumber in
  if negb (startsWith "%" line) then
    Returns (log (if String.eqb last "Warning" then LogWarn else LogError) line st)
  else
    match exec errorParserRegex line with
    | None => TypeError (logged st)       (* rex is null: rex.groups throws *)
    | Some rex =>
        let st1 :=
          if decide (group rex "severity" = Some "Error") then log LogError line st
          else if decide (group rex "severity" = Some "Warning") then log LogWarn line st
          else log LogError line st in
        match truthy (group rex "filePath") with
        | None => Returns st1
        | Some path =>
            let file := if isWindows then replaceBackslashes path else path in
            let fd := ensureFile file (filesDiag st1) in
            match structured stderrLines currentLineNumber rex file fd with
            | Some fd' => Returns (mkState (logged st1) fd')
            | None => IllegalArgument (logged st1)
            end
        end
    end.

(** [stderrLines.forEach(...)], from index [currentLineNumber] on; [todo]
    is the part of [stderrLines] still to visit. *)
Fixpoint forEach (isWindows : bool) (stderrLines todo : list string)
    (currentLineNumber : nat) (st : State) : outcome State :=
  match todo with
  | [] => Returns st
  | line :: todo' =>
      match lintLine isWindows stderrLines currentLineNumber line st with
      | Returns st' => forEach isWindows stderrLines todo' (S currentLineNumber) st'
      | TypeError sofar => TypeError sofar
      | IllegalArgument sofar => IllegalArgument sofar
      end
  end.

(** The pass over one stderr text, before anything is published. *)
Definition parse (isWindows : bool) (stderr : string) : outcome State :=
  let stderrLines := split_lines stderr in
  forEach isWindows stderrLines stderrLines 0 (mkState [] ∅).

(** Lines 442-452: [diagnosticCollection.clear()], then one [set] for
    each entry of [filesDiag].  The keys of a map are distinct, so the
    order of the [set] calls does not show in the result. *)
Definition clear (diagnosticCollection : DiagnosticSet)
    : DiagnosticSet := ∅.

Definition publish (fd : DiagnosticSet)
    (diagnosticCollection : DiagnosticSet)
    : DiagnosticSet :=
  map_fold (fun fileName issuesArray dc => <[Uri_file fileName := issuesArray]> dc)
           (clear diagnosticCollection) fd.

(** What a pass leaves behind: the sink's entries and the collection. *)
Record Pass : Type := mkPass {
  passthrough : list LogEntry;
  collection : DiagnosticSet;
  completed : bool          (* false: the callback threw *)
}.

(** The callback as a whole.  When it throws, the collection is the one
    of before: line 442 was never reached. *)
Definition callback (isWindows : bool)
    (diagnosticCollection : DiagnosticSet) (stderr : string)
    : Pass :=
  match parse isWindows stderr with
  | Returns st => mkPass (logged st) (publish (filesDiag st) diagnosticCollection) true
  | TypeError sofar | IllegalArgument sofar =>
      mkPass sofar diagnosticCollection false
  end.

End Lint.

(** ** Vocabulary of the statements *)

Module Facts.
Import Regex Patterns Lint.
Local Open Scope list_scope.

(** A text made of the given lines, with LF between them. *)
Fixpoint joinLines (ls : list string) : string :=
  match ls with
  | [] => EmptyString
  | [l] => l
  | l :: ls' => (l ++ String "010" (joinLines ls'))%string
  end.

(** The diagnostics of a file in a set; a file without an entry has none. *)
Definition diagnosticsOf (fd : DiagnosticSet) (file : string)
    : list Diagnostic :=
  default [] (fd !! file).

(** The continuation block: the lines after a header up to the next line
    that starts with [%]. *)
Fixpoint block (rest : list string) : list string :=
  match rest with
  | [] => []
  | l :: rest' => if startsWith "%" l then [] else l :: block rest'
  end.

(** The texts of the secondary messages of a block, in the order of
    their lines. *)
Fixpoint secondaryTexts (blk : list string) : list (option string) :=
  match blk with
  | [] => []
  | l :: blk' =>
      match exec bottomMessageRegex l with
      | Some m => group m "verboseError" :: secondaryTexts blk'
      | None => secondaryTexts blk'
      end
  end.

(** The lines that the pattern of the additional messages matches, from
    the first of the given lines up to the first line it does not match.
    Applied to the lines after a header it is the run that lines 236-253
    read, which is not cut at a line that starts with [%]; applied to a
    block it is the run of elaboration lines of the block. *)
Fixpoint elaborationRun (rest : list string) : list string :=
  match rest with
  | [] => []
  | l :: rest' => if test topRelatedInfoRegex l then l :: elaborationRun rest' else []
  end.

Definition elaborationText (l : string) : option string :=
  match exec topRelatedInfoRegex l with
  | Some m => group m "verboseError"
  | None => None
  end.

(** No highlight line reaches the message pushed last: the lines up to
    the next secondary message, or to the end of the block, do not match
    the highlight pattern. *)
Fixpoint unrefined (post : list string) : bool :=
  match post with
  | [] => true
  | l :: post' =>
      if startsWith "%" l then true
      else if test bottomMessageRegex l then true
      else if test highlightRegex l then false
      else unrefined post'
  end.

(** The diagnostic was built for the header at some line of the text. *)
Definition emitted (stderrLines : list string) (file : string) (d : Diagnostic)
    : Prop :=
  exists i line rex,
    stderrLines !! i = Some line /\ startsWith "%" line = true /\
    exec errorParserRegex line = Some rex /\
    d = diagnosticOf stderrLines i rex file.

(** The end positions of the related messages of each diagnostic of a
    file, as a pass published them. *)
Definition relatedEnds (p : Pass) (file : string) : list (list Position) :=
  map (fun d => map (fun m => end_ (range (location m))) (relatedInformation d))
      (diagnosticsOf (collection p) file).

(** The ranges of the diagnostics of a file, as a pass published them. *)
Definition ranges (p : Pass) (file : string) : list Range :=
  map drange (diagnosticsOf (collection p) file).

(** A group is set by every match of the pattern. *)
Fixpoint defines (name : string) (r : regex) : bool :=
  match r with
  | Eps | Chr _ | Star _ => false
  | Seq r1 r2 => (defines name r1 || defines name r2)%bool
  | Alt r1 r2 => (defines name r1 && defines name r2)%bool
  | Named n r1 => (String.eqb n name || defines name r1)%bool
  end.

(** Every match of the pattern takes at least one character. *)
Fixpoint consumes (r : regex) : bool :=
  match r with
  | Eps | Star _ => false
  | Chr _ => true
  | Seq r1 r2 => (consumes r1 || consumes r2)%bool
  | Alt r1 r2 => (consumes r1 && consumes r2)%bool
  | Named _ r1 => consumes r1
  end.

(** What a successful match tells about the call of its continuation:
    [s'] and [g'] are the rest of the input and the captures it got. *)
Record reached (r : regex) (s : string) (g : captures)
    (s' : string) (g' : captures) : Prop := {
  reached_length : (String.length s' <= String.length s)%nat;
  reached_strict : consumes r = true -> (String.length s' < String.length s)%nat;
  reached_keeps : forall n, is_Some (g !! n) -> is_Some (g' !! n);
  reached_defines : forall n, defines n r = true -> is_Some (g' !! n)
}.

End Facts.
(** ** Vocabulary of the further properties *)

Module More.
Import Regex Patterns Lint Facts.
Local Open Scope list_scope.

(** *** What a match is *)

(** Zero or more steps of a relation between matcher states. *)
Inductive iter (step : string -> captures -> string -> captures -> Prop)
    : string -> captures -> string -> captures -> Prop :=
| iter_done s g : iter step s g s g
| iter_more s g s1 g1 s' g' :
    step s g s1 g1 -> iter step s1 g1 s' g' -> iter step s g s' g'.

(** [matches r s g s' g']: the pattern can take the matcher from the input
    [s] with captures [g] to the rest [s'] with captures [g'].  This is the
    declarative reading of [rmatch], without its order of choices. *)
Fixpoint matches (r : regex) (s : string) (g : captures)
    (s' : string) (g' : captures) {struct r} : Prop :=
  match r with
  | Eps => s' = s /\ g' = g
  | Chr c => exists a, s = String a s' /\ cmatch c a = true /\ g' = g
  | Seq r1 r2 => exists s1 g1, matches r1 s g s1 g1 /\ matches r2 s1 g1 s' g'
  | Alt r1 r2 => matches r1 s g s' g' \/ matches r2 s g s' g'
  | Star r1 => iter (matches r1) s g s' g'
  | Named name r1 =>
      exists g1, matches r1 s g s' g1 /\ g' = <[name := consumed s s']> g1
  end.

(** The bodies of the groups of a pattern that carry the given name. *)
Fixpoint bodies (name : string) (r : regex) : list regex :=
  match r with
  | Eps | Chr _ => []
  | Seq r1 r2 | Alt r1 r2 => bodies name r1 ++ bodies name r2
  | Star r1 => bodies name r1
  | Named n r1 => (if String.eqb n name then [r1] else []) ++ bodies name r1
  end.

(** The pattern has no group. *)
Fixpoint capture_free (r : regex) : bool :=
  match r with
  | Eps | Chr _ => true
  | Seq r1 r2 | Alt r1 r2 => (capture_free r1 && capture_free r2)%bool
  | Star r1 => capture_free r1
  | Named _ _ => false
  end.

(** Every character of the text satisfies the test. *)
Fixpoint all_chars (p : ascii -> bool) (t : string) : bool :=
  match t with
  | EmptyString => true
  | String a t' => (p a && all_chars p t')%bool
  end.

(** The sets of groups that a match of the pattern can set: one list of
    names for each way through its alternatives. *)
Fixpoint shapes (r : regex) : list (list string) :=
  match r with
  | Eps | Chr _ | Star _ => [[]]
  | Seq r1 r2 => flat_map (fun sh1 => map (app sh1) (shapes r2)) (shapes r1)
  | Alt r1 r2 => shapes r1 ++ shapes r2
  | Named n r1 => map (cons n) (shapes r1)
  end.

(** No group of the pattern is under a star. *)
Fixpoint tame (r : regex) : bool :=
  match r with
  | Eps | Chr _ => true
  | Seq r1 r2 | Alt r1 r2 => (tame r1 && tame r2)%bool
  | Star r1 => capture_free r1
  | Named _ r1 => tame r1
  end.

(** The file suffixes that end a file path (line 180 and line 305). *)
Definition extensions : list string :=
  [".svh"; ".sv"; ".SV"; ".vh"; ".vl"; ".v"].

(** [filesDiag] keys: the path as matched, with slashes on Windows
    (lines 207-210). *)
Definition fileKey (isWindows : bool) (path : string) : string :=
  if isWindows then replaceBackslashes path else path.

(** *** Texts and lines *)

Fixpoint count_char (a : ascii) (s : string) : nat :=
  match s with
  | EmptyString => O
  | String b s' => ((if Ascii.eqb a b then 1 else 0) + count_char a s')%nat
  end.

(** No LF of the text has a CR right before it. *)
Fixpoint crlf_free (s : string) : bool :=
  match s with
  | EmptyString => true
  | String a s' =>
      match a, s' with
      | "013"%char, String "010" _ => false
      | _, _ => crlf_free s'
      end
  end.

(** *** Numbers *)

(** The value of a run of decimal digits. *)
Fixpoint decimal_from (acc : Z) (s : string) : Z :=
  match s with
  | EmptyString => acc
  | String a s' => decimal_from (10 * acc + digit_value a) s'
  end.

Definition decimal (v : string) : Z := decimal_from 0 v.

(** A number of at most fifteen digits: it is below 10^15, where a double
    holds every integer. *)
Definition short (v : string) : Prop := (String.length v <= 15)%nat.

(** The number of decimal digits the text starts with. *)
Fixpoint digit_prefix (s : string) : nat :=
  match s with
  | EmptyString => O
  | String a s' => if is_digit a then S (digit_prefix s') else O
  end.

(** No run of decimal digits in the text is longer than [n]. *)
Fixpoint short_runs (n : nat) (s : string) : bool :=
  (Nat.leb (digit_prefix s) n
   && match s with
      | EmptyString => true
      | String _ s' => short_runs n s'
      end)%bool.

(** A line of fewer than 10^15 characters, no number on which has more
    than fifteen digits. *)
Definition modest (l : string) : bool :=
  (short_runs 15 l && (Z.of_nat (String.length l) <? 10 ^ 15))%bool.

(** *** The pass *)





(** What the sink has received when the callback of a line returns or
    throws. *)
Definition logOf (o : outcome State) : list LogEntry :=
  match o with
  | Returns st => logged st
  | TypeError sofar | IllegalArgument sofar => sofar
  end.

(** The line starts with neither marker of the backward scan. *)
Definition unmarked (line : string) : bool :=
  (negb (startsWith "%Error" line) && negb (startsWith "%Warning" line))%bool.

(** What the line at index [i] adds to the diagnostics of [file]: the
    diagnostic built for it when it is a header that names the file and
    has a line number, nothing otherwise. *)
Definition contribution (isWindows : bool) (stderrLines : list string)
    (file : string) (i : nat) (line : string) : list Diagnostic :=
  if startsWith "%" line then
    match exec errorParserRegex line with
    | Some rex =>
        match truthy (group rex "filePath"), group rex "lineNumber" with
        | Some path, Some _ =>
            if decide (fileKey isWindows path = file)
            then [diagnosticOf stderrLines i rex file] else []
        | _, _ => []
        end
    | None => []
    end
  else [].

(** The line is a header that names the file: the header pattern finds a
    file path on it whose key is [file]. *)
Definition names (isWindows : bool) (file : string) (line : string) : Prop :=
  startsWith "%" line = true /\
  exists rex path,
    exec errorParserRegex line = Some rex /\
    truthy (group rex "filePath") = Some path /\
    fileKey isWindows path = file.

(** Lines 72, 77 and 81, [p.replace(/\\/g, '/')]: every backslash of the
    path of the document becomes a slash. *)
Fixpoint toSlashes (s : string) : string :=
  match s with
  | EmptyString => EmptyString
  | String a s' => String (if Ascii.eqb a "\" then "/"%char else a) (toSlashes s')
  end.

(** No backslash of the text is followed by another one. *)
Fixpoint single_backslashes (s : string) : bool :=
  match s with
  | EmptyString => true
  | String a s' =>
      match s' with
      | String b _ =>
          (negb (Ascii.eqb a "\" && Ascii.eqb b "\") && single_backslashes s')%bool
      | EmptyString => true
      end
  end.

(** *** [splitTerms] (lines 39-52) *)

(** [line.split(sep)] for a separator of one character; [cur] is the term
    being read. *)
Fixpoint splitOn (sep : ascii) (cur : string) (s : string) : list string :=
  match s with
  | EmptyString => [cur]
  | String a s' =>
      if Ascii.eqb a sep then cur :: splitOn sep EmptyString s'
      else splitOn sep (cur ++ String a EmptyString) s'
  end.

(** [s.trim()]: white space and line terminators go from both ends. *)
Fixpoint trimStart (s : string) : string :=
  match s with
  | EmptyString => EmptyString
  | String a s' => if is_space a then trimStart s' else s
  end.

Fixpoint trimEnd (s : string) : string :=
  match s with
  | EmptyString => EmptyString
  | String a s' =>
      match trimEnd s' with
      | EmptyString => if is_space a then EmptyString else String a EmptyString
      | t => String a t
      end
  end.

Definition trim (s : string) : string := trimEnd (trimStart s).

(** The loop of lines 42-49 over the terms not visited yet: a term that is
    one blank is spliced out and the index stays, any other term is
    trimmed in place and the index moves on. *)
Fixpoint splitTermsLoop (terms : list string) : list string :=
  match terms with
  | [] => []
  | term :: terms' =>
      if String.eqb term " " then splitTermsLoop terms'
      else trim term :: splitTermsLoop terms'
  end.

Definition splitTerms (line : string) : list string :=
  splitTermsLoop (splitOn ":" EmptyString line).

(** The first and the last character of a text. *)
Definition first_char (s : string) : option ascii :=
  match s with
  | EmptyString => None
  | String a _ => Some a
  end.

Fixpoint last_char (s : string) : option ascii :=
  match s with
  | EmptyString => None
  | String a EmptyString => Some a
  | String _ s' => last_char s'
  end.

(** The text is a piece of the line. *)
Definition piece (v line : string) : Prop :=
  exists pre post, line = (pre ++ v ++ post)%string.

(** A range on one line that starts at a column below 10^15 and is open,
    or ends fewer than 10^15 columns after its start: the sum is below
    2^53, so the end is past the start in the running program too. *)
Definition forward (r : Range) : Prop :=
  line (start r) = line (end_ r) /\
  exists c,
    character (start r) = Int c /\ -1 <= c < 10 ^ 15 /\
    (character (end_ r) = MAX_VALUE \/
     exists n, 0 < n < 10 ^ 15 /\ character (end_ r) = Int (c + n)).

End More.

(** ** Facts about the matcher *)

Module RegexFacts.
Import Regex Patterns Lint Facts.

Lemma rmatch_inv {A : Type} (r : regex) :
  forall (s : string) (g : captures) (k : string -> captures -> option A) (x : A),
    rmatch r s g k = Some x ->
    exists s' g', reached r s g s' g' /\ k s' g' = Some x.
Proof.
  induction r as [| c | r1 IH1 r2 IH2 | r1 IH1 r2 IH2 | r1 IH1 | name r1 IH1];
    intros s g k x H; simpl in H.
  - exists s, g. split; [constructor; simpl; auto; try lia; discriminate | exact H].
  - destruct s as [| a s0]; [discriminate |].
    destruct (cmatch c a); [| discriminate].
    exists s0, g. split; [constructor; simpl; auto; try lia; discriminate | exact H].
  - apply IH1 in H as (s1 & g1 & R1 & H).
    apply IH2 in H as (s2 & g2 & R2 & H).
    exists s2, g2. split; [| exact H].
    destruct R1 as [L1 S1 K1 D1], R2 as [L2 S2 K2 D2]. constructor; simpl.
    + lia.
    + intros Hc. apply orb_true_iff in Hc as [Hc | Hc].
      * specialize (S1 Hc). lia.
      * specialize (S2 Hc). lia.
    + auto.
    + intros n Hn. apply orb_true_iff in Hn as [Hn | Hn]; auto.
  - destruct (rmatch r1 s g k) as [y |] eqn:E1.
    + injection H as ->. apply IH1 in E1 as (s1 & g1 & R1 & H).
      exists s1, g1. split; [| exact H].
      destruct R1 as [L1 S1 K1 D1]. constructor; simpl; auto.
      * intros Hc. apply andb_true_iff in Hc as [Hc _]. auto.
      * intros n Hn. apply andb_true_iff in Hn as [Hn _]. auto.
    + apply IH2 in H as (s2 & g2 & R2 & H).
      exists s2, g2. split; [| exact H].
      destruct R2 as [L2 S2 K2 D2]. constructor; simpl; auto.
      * intros Hc. apply andb_true_iff in Hc as [_ Hc]. auto.
      * intros n Hn. apply andb_true_iff in Hn as [_ Hn]. auto.
  - revert H. generalize (String.length s) at 1 as n. intros n. revert s g.
    induction n as [| n IHn]; intros s g H.
    + exists s, g. split; [constructor; simpl; auto; discriminate | exact H].
    + match type of H with
      | match ?m with _ => _ end = _ => destruct m as [y |] eqn:E1
      end.
      * injection H as ->. apply IH1 in E1 as (s1 & g1 & R1 & H).
        destruct (Nat.ltb (String.length s1) (String.length s)) eqn:Hlt;
          [| discriminate].
        apply IHn in H as (s2 & g2 & R2 & H).
        exists s2, g2. split; [| exact H].
        destruct R1 as [L1 S1 K1 D1], R2 as [L2 S2 K2 D2].
        constructor; simpl; auto; try discriminate. lia.
      * exists s, g. split; [constructor; simpl; auto; discriminate | exact H].
  - apply IH1 in H as (s1 & g1 & R1 & H).
    exists s1, (<[name := consumed s s1]> g1). split; [| exact H].
    destruct R1 as [L1 S1 K1 D1]. constructor; simpl; auto.
    + intros n Hn. destruct (decide (name = n)) as [-> | Hne].
      * rewrite lookup_insert_eq. eauto.
      * rewrite lookup_insert_ne by exact Hne. auto.
    + intros n Hn. destruct (decide (name = n)) as [-> | Hne].
      * rewrite lookup_insert_eq. eauto.
      * rewrite lookup_insert_ne by exact Hne.
        apply orb_true_iff in Hn as [Hn | Hn]; auto.
        apply String.eqb_eq in Hn. contradiction.
Qed.

Lemma length_substring0 (s : string) :
  forall n, (n <= String.length s)%nat -> String.length (substring 0 n s) = n.
Proof.
  induction s as [| a s IH]; intros [| n] Hn; simpl in *; try reflexivity; try lia.
  rewrite IH by lia. reflexivity.
Qed.

Lemma match_here_inv (r : regex) (s : string) (m : result) :
  match_here r s = Some m ->
  exists s', reached r s ∅ s' (groups m) /\ matched m = consumed s s'.
Proof.
  unfold match_here. intros H.
  apply rmatch_inv in H as (s' & g' & R & H).
  injection H as <-. exists s'. split; [exact R | reflexivity].
Qed.

Lemma exec_inv (r : regex) (s : string) (m : result) :
  exec r s = Some m -> exists s0, match_here r s0 = Some m.
Proof.
  induction s as [| a s IH]; simpl; intros H.
  - destruct (match_here r EmptyString) eqn:E; [| discriminate].
    injection H as ->. eauto.
  - destruct (match_here r (String a s)) eqn:E.
    + injection H as ->. eauto.
    + auto.
Qed.

(** A group that every match of the pattern sets is defined in the
    result of [exec]. *)
Lemma exec_defines (r : regex) (s : string) (m : result) (name : string) :
  defines name r = true -> exec r s = Some m -> is_Some (group m name).
Proof.
  intros Hd H. apply exec_inv in H as [s0 H].
  apply match_here_inv in H as (s' & R & _).
  unfold group. apply (reached_defines _ _ _ _ _ R). exact Hd.
Qed.

(** [rex[0]] is not empty when the pattern cannot match the empty text. *)
Lemma exec_nonempty (r : regex) (s : string) (m : result) :
  consumes r = true -> exec r s = Some m -> (0 < String.length (matched m))%nat.
Proof.
  intros Hc H. apply exec_inv in H as [s0 H].
  apply match_here_inv in H as (s' & R & ->).
  pose proof (reached_strict _ _ _ _ _ R Hc) as Hlt.
  unfold consumed. rewrite length_substring0; lia.
Qed.

Lemma errorParser_matched_nonempty (line : string) (rex : result) :
  exec errorParserRegex line = Some rex ->
  Nat.ltb 0 (String.length (matched rex)) = true.
Proof.
  intros H. apply Nat.ltb_lt. eapply exec_nonempty; [| exact H]. reflexivity.
Qed.

(** The groups the linter reads without a test are always there. *)
Lemma errorParser_groups (line : string) (rex : result) :
  exec errorParserRegex line = Some rex ->
  is_Some (group rex "severity") /\ is_Some (group rex "verboseError").
Proof.
  intros H. split; eapply exec_defines; try exact H; reflexivity.
Qed.

Lemma highlight_group (l : string) (m : result) :
  exec highlightRegex l = Some m -> is_Some (group m "highlight").
Proof. intros H. eapply exec_defines; [| exact H]. reflexivity. Qed.

Lemma topRelatedInfo_group (l : string) (m : result) :
  exec topRelatedInfoRegex l = Some m -> is_Some (group m "verboseError").
Proof. intros H. eapply exec_defines; [| exact H]. reflexivity. Qed.

Lemma bottomMessage_group (l : string) (m : result) :
  exec bottomMessageRegex l = Some m -> is_Some (group m "verboseError").
Proof. intros H. eapply exec_defines; [| exact H]. reflexivity. Qed.

End RegexFacts.

(** ** Facts about the pass *)

Module LintFacts.
Import Regex Patterns Lint Facts RegexFacts.
Local Open Scope list_scope.

(** After [clear], the [set] calls rebuild [filesDiag] itself. *)
Lemma publish_eq (fd dc : DiagnosticSet) : publish fd dc = fd.
Proof.
  unfold publish, clear, Uri_file.
  apply (map_fold_weak_ind (fun r m => r = m)).
  - reflexivity.
  - intros i x m r _ ->. reflexivity.
Qed.

Lemma lintLine_plain isWindows stderrLines i line st :
  startsWith "%" line = false ->
  exists lv, lintLine isWindows stderrLines i line st = Returns (log lv line st).
Proof.
  intros H. unfold lintLine. rewrite H. simpl. eauto.
Qed.

(** A header line is logged before anything else is decided about it. *)
Lemma lintLine_header isWindows stderrLines i line st rex :
  startsWith "%" line = true ->
  exec errorParserRegex line = Some rex ->
  exists lv,
    lintLine isWindows stderrLines i line st =
    match truthy (group rex "filePath") with
    | None => Returns (log lv line st)
    | Some path =>
        let file := if isWindows then replaceBackslashes path else path in
        match structured stderrLines i rex file (ensureFile file (filesDiag st)) with
        | Some fd' => Returns (mkState (logged (log lv line st)) fd')
        | None => IllegalArgument (logged (log lv line st))
        end
    end.
Proof.
  intros Hp Hx. unfold lintLine. rewrite Hp, Hx. simpl.
  destruct (decide (group rex "severity" = Some "Error"));
    [| destruct (decide (group rex "severity" = Some "Warning"))];
    eexists; destruct (truthy (group rex "filePath")); reflexivity.
Qed.

(** What [structured] gives when no range of the visit fails, and that
    it fails for every [filesDiag] or for none. *)
Lemma structured_Some stderrLines i rex file fd fd' :
  structured stderrLines i rex file fd = Some fd' ->
  fd' = if (Nat.ltb 0 (String.length (matched rex)) && negb (isNaN (lineNum rex)))%bool
        then pushDiag file (diagnosticOf stderrLines i rex file) fd
        else fd.
Proof.
  unfold structured.
  destruct (Nat.ltb 0 (String.length (matched rex))); simpl; [| congruence].
  destruct (visitThrows stderrLines i rex file); [discriminate |].
  destruct (isNaN (lineNum rex)); simpl; congruence.
Qed.

Lemma structured_None stderrLines i rex file fd :
  structured stderrLines i rex file fd = None <->
  (Nat.ltb 0 (String.length (matched rex)) && visitThrows stderrLines i rex file)%bool
  = true.
Proof.
  unfold structured.
  destruct (Nat.ltb 0 (String.length (matched rex))); simpl; [| split; discriminate].
  destruct (visitThrows stderrLines i rex file); [split; reflexivity |].
  destruct (isNaN (lineNum rex)); split; discriminate.
Qed.

Lemma structured_total stderrLines i rex file fd :
  visitThrows stderrLines i rex file = false ->
  exists fd', structured stderrLines i rex file fd = Some fd'.
Proof.
  intros Hv. destruct (structured stderrLines i rex file fd) eqn:E; [eauto |].
  apply structured_None in E. rewrite Hv, andb_false_r in E. discriminate.
Qed.

Lemma structured_any stderrLines i rex file fd1 fd1' fd2 :
  structured stderrLines i rex file fd1 = Some fd1' ->
  exists fd2', structured stderrLines i rex file fd2 = Some fd2'.
Proof.
  intros H. destruct (structured stderrLines i rex file fd2) eqn:E; [eauto |].
  apply structured_None in E. apply (structured_None _ _ _ _ fd1) in E. congruence.
Qed.

Lemma lintLine_logged isWindows stderrLines i line st st' :
  lintLine isWindows stderrLines i line st = Returns st' ->
  map snd (logged st') = map snd (logged st) ++ [line].
Proof.
  intros H. destruct (startsWith "%" line) eqn:Hp.
  - destruct (exec errorParserRegex line) as [rex |] eqn:Hx.
    + destruct (lintLine_header isWindows stderrLines i line st rex Hp Hx) as [lv E].
      rewrite E in H. destruct (truthy (group rex "filePath")); simpl in H;
        [destruct (structured _ _ _ _ _); [| discriminate] |];
        injection H as <-; simpl; rewrite map_app; reflexivity.
    + unfold lintLine in H. rewrite Hp, Hx in H. discriminate.
  - destruct (lintLine_plain isWindows stderrLines i line st Hp) as [lv E].
    rewrite E in H. injection H as <-. simpl. rewrite map_app. reflexivity.
Qed.

Lemma forEach_logged isWindows stderrLines todo :
  forall i st st',
    forEach isWindows stderrLines todo i st = Returns st' ->
    map snd (logged st') = map snd (logged st) ++ todo.
Proof.
  induction todo as [| line todo IH]; intros i st st' H; simpl in H.
  - injection H as <-. rewrite app_nil_r. reflexivity.
  - destruct (lintLine isWindows stderrLines i line st) as [st1 | |] eqn:E;
      [| discriminate ..].
    apply IH in H. apply lintLine_logged in E.
    rewrite H, E, <- app_assoc. reflexivity.
Qed.

Lemma forEach_app isWindows stderrLines pre post :
  forall i st st',
    forEach isWindows stderrLines (pre ++ post) i st = Returns st' ->
    exists mid,
      forEach isWindows stderrLines pre i st = Returns mid /\
      forEach isWindows stderrLines post (i + List.length pre) mid = Returns st'.
Proof.
  induction pre as [| line pre IH]; intros i st st' H; simpl in *.
  - exists st. rewrite Nat.add_0_r. auto.
  - destruct (lintLine isWindows stderrLines i line st) as [st1 | |];
      [| discriminate ..].
    apply IH in H as (mid & H1 & H2). exists mid. split; [exact H1 |].
    rewrite <- Nat.add_succ_comm. exact H2.
Qed.

Lemma diagnosticsOf_ensureFile file fd f :
  diagnosticsOf (ensureFile file fd) f = diagnosticsOf fd f.
Proof.
  unfold diagnosticsOf, ensureFile.
  destruct (fd !! file) eqn:E; [reflexivity |].
  destruct (decide (file = f)) as [-> | Hne].
  - rewrite lookup_insert_eq, E. reflexivity.
  - rewrite lookup_insert_ne by exact Hne. reflexivity.
Qed.

Lemma ensureFile_is_Some file fd : is_Some (ensureFile file fd !! file).
Proof.
  unfold ensureFile. destruct (fd !! file) eqn:E; [rewrite E; eauto |].
  rewrite lookup_insert_eq. eauto.
Qed.

Lemma ensureFile_keeps file fd f :
  is_Some (fd !! f) -> is_Some (ensureFile file fd !! f).
Proof.
  unfold ensureFile. destruct (fd !! file) eqn:E; [auto |].
  intros H. destruct (decide (file = f)) as [-> | Hne].
  - rewrite lookup_insert_eq. eauto.
  - rewrite lookup_insert_ne by exact Hne. exact H.
Qed.

Lemma structured_keeps stderrLines i rex file fd fd' f :
  structured stderrLines i rex file fd = Some fd' ->
  is_Some (fd !! f) -> is_Some (fd' !! f).
Proof.
  intros E H. apply structured_Some in E as ->. unfold pushDiag.
  destruct (Nat.ltb 0 (String.length (matched rex)) && negb (isNaN (lineNum rex)))%bool;
    [| exact H].
  destruct (decide (file = f)) as [-> | Hne].
  - rewrite lookup_insert_eq. eauto.
  - rewrite lookup_insert_ne by exact Hne. exact H.
Qed.

(** A file that has an entry keeps one to the end of the pass. *)
Lemma lintLine_keeps isWindows stderrLines i line st st' f :
  lintLine isWindows stderrLines i line st = Returns st' ->
  is_Some (filesDiag st !! f) -> is_Some (filesDiag st' !! f).
Proof.
  intros H Hf. destruct (startsWith "%" line) eqn:Hp.
  - destruct (exec errorParserRegex line) as [rex |] eqn:Hx.
    + destruct (lintLine_header isWindows stderrLines i line st rex Hp Hx) as [lv E].
      rewrite E in H. destruct (truthy (group rex "filePath")); simpl in H.
      * destruct (structured _ _ _ _ _) eqn:Es; [| discriminate].
        injection H as <-. simpl.
        eapply structured_keeps; [exact Es |]. apply ensureFile_keeps, Hf.
      * injection H as <-. exact Hf.
    + unfold lintLine in H. rewrite Hp, Hx in H. discriminate.
  - destruct (lintLine_plain isWindows stderrLines i line st Hp) as [lv E].
    rewrite E in H. injection H as <-. exact Hf.
Qed.

Lemma forEach_keeps isWindows stderrLines todo f :
  forall i st st',
    forEach isWindows stderrLines todo i st = Returns st' ->
    is_Some (filesDiag st !! f) -> is_Some (filesDiag st' !! f).
Proof.
  induction todo as [| line todo IH]; intros i st st' H Hf; simpl in H.
  - injection H as <-. exact Hf.
  - destruct (lintLine isWindows stderrLines i line st) as [st1 | |] eqn:E;
      [| discriminate ..].
    eapply IH; [exact H |]. eapply lintLine_keeps; eauto.
Qed.

(** *** The bottom-message loop *)

Local Arguments startsWith : simpl never.

Lemma updateLast_snoc len init m :
  updateLast len (init ++ [m]) = init ++ [withNewRange len m].
Proof.
  induction init as [| a init IH]; simpl; [reflexivity |].
  rewrite IH. destruct (init ++ [m]) eqn:E; [| reflexivity].
  destruct init; discriminate.
Qed.

Lemma updateLast_rmessage len ms :
  map rmessage (updateLast len ms) = map rmessage ms.
Proof.
  induction ms as [| m init _] using rev_ind; [reflexivity |].
  rewrite updateLast_snoc, !map_app. reflexivity.
Qed.

Lemma updateLast_length len ms :
  List.length (updateLast len ms) = List.length ms.
Proof.
  rewrite <- (length_map rmessage), updateLast_rmessage, length_map. reflexivity.
Qed.

(** Only the last message is ever touched. *)
Lemma updateLast_lookup_lt len ms i :
  (S i < List.length ms)%nat -> updateLast len ms !! i = ms !! i.
Proof.
  induction ms as [| m init _] using rev_ind; [simpl; lia |].
  rewrite updateLast_snoc, length_app. simpl. intros H.
  rewrite !lookup_app_l by lia. reflexivity.
Qed.

Lemma test_exec r l : test r l = match exec r l with Some _ => true | None => false end.
Proof. reflexivity. Qed.

(** A line that is a message and no highlight of an earlier one. *)
Lemma bottomStep_push h l bms matched :
  exec bottomMessageRegex l = Some matched ->
  bms = [] \/ test highlightRegex l = false ->
  bottomStep h l bms = bms ++ [bottomMessage h matched].
Proof.
  intros Hm Hh. unfold bottomStep. rewrite Hm.
  destruct Hh as [-> | ->]; [reflexivity |].
  rewrite andb_false_r. reflexivity.
Qed.

(** A highlight line that is no message, once a message was pushed. *)
Lemma bottomStep_highlight h l init last m :
  exec bottomMessageRegex l = None ->
  exec highlightRegex l = Some m ->
  bottomStep h l (init ++ [last]) =
  init ++ [withNewRange (group_length m "highlight") last].
Proof.
  intros Hm Hh. unfold bottomStep. rewrite Hm, test_exec, Hh, length_app.
  simpl. replace (Nat.ltb 0 (List.length init + 1)) with true
    by (symmetry; apply Nat.ltb_lt; lia).
  simpl. apply updateLast_snoc.
Qed.

(** A message line always adds one message at the end. *)
Lemma bottomStep_pushes h l bms matched :
  exec bottomMessageRegex l = Some matched ->
  exists new, bottomStep h l bms = bms ++ [new].
Proof.
  intros Hm. unfold bottomStep. rewrite Hm.
  destruct (Nat.ltb 0 (List.length bms) && test highlightRegex l)%bool; [| eauto].
  destruct (exec highlightRegex l); [| eauto].
  rewrite updateLast_snoc. eauto.
Qed.

Lemma bottomStep_idle h l bms :
  exec bottomMessageRegex l = None ->
  bms = [] \/ test highlightRegex l = false ->
  bottomStep h l bms = bms.
Proof.
  intros Hm Hh. unfold bottomStep. rewrite Hm.
  destruct Hh as [-> | ->]; [reflexivity |].
  rewrite andb_false_r. reflexivity.
Qed.

Lemma bottomStep_rmessage h l bms :
  map rmessage (bottomStep h l bms) =
  map rmessage bms ++
  match exec bottomMessageRegex l with
  | Some m => [group m "verboseError"]
  | None => []
  end.
Proof.
  unfold bottomStep.
  destruct (Nat.ltb 0 (List.length bms) && test highlightRegex l)%bool;
    [destruct (exec highlightRegex l); [rewrite updateLast_rmessage |] |];
    destruct (exec bottomMessageRegex l);
    rewrite ?map_app, ?app_nil_r; reflexivity.
Qed.

Lemma bottomStep_length h l bms :
  (List.length bms <= List.length (bottomStep h l bms))%nat.
Proof.
  rewrite <- (length_map rmessage (bottomStep h l bms)), bottomStep_rmessage.
  rewrite length_app, length_map. lia.
Qed.

Lemma bottomStep_lookup_lt h l bms i :
  (S i < List.length bms)%nat -> bottomStep h l bms !! i = bms !! i.
Proof.
  intros Hi. unfold bottomStep.
  assert (Hp : forall new, (bms ++ new) !! i = bms !! i)
    by (intros new; apply lookup_app_l; lia).
  destruct (Nat.ltb 0 (List.length bms) && test highlightRegex l)%bool;
    [destruct (exec highlightRegex l) |];
    destruct (exec bottomMessageRegex l); rewrite ?updateLast_lookup_lt;
    rewrite ?length_app; auto; lia.
Qed.

Lemma bottomLoop_rmessage h rest :
  forall bms,
    map rmessage (bottomLoop h rest bms) =
    map rmessage bms ++ secondaryTexts (block rest).
Proof.
  induction rest as [| l rest IH]; intros bms; simpl.
  - rewrite app_nil_r. reflexivity.
  - destruct (startsWith "%" l); simpl; [rewrite app_nil_r; reflexivity |].
    rewrite IH, bottomStep_rmessage, <- app_assoc.
    destruct (exec bottomMessageRegex l); reflexivity.
Qed.

Lemma bottomLoop_lookup_lt h rest :
  forall bms i,
    (S i < List.length bms)%nat -> bottomLoop h rest bms !! i = bms !! i.
Proof.
  induction rest as [| l rest IH]; intros bms i Hi; simpl; [reflexivity |].
  destruct (startsWith "%" l); [reflexivity |].
  rewrite IH by (pose proof (bottomStep_length h l bms); lia).
  apply bottomStep_lookup_lt, Hi.
Qed.

(** The message pushed last stays as it is when no highlight line is met
    before the next message. *)
Lemma bottomLoop_unrefined h post :
  forall init m,
    unrefined post = true ->
    bottomLoop h post (init ++ [m]) !! List.length init = Some m.
Proof.
  induction post as [| l post IH]; intros init m Hq; simpl in *.
  - rewrite lookup_app_r, Nat.sub_diag by lia. reflexivity.
  - destruct (startsWith "%" l).
    { rewrite lookup_app_r, Nat.sub_diag by lia. reflexivity. }
    rewrite test_exec in Hq.
    destruct (exec bottomMessageRegex l) as [matched |] eqn:Hm.
    + destruct (bottomStep_pushes h l (init ++ [m]) matched Hm) as [new ->].
      rewrite bottomLoop_lookup_lt by (rewrite !length_app; simpl; lia).
      rewrite lookup_app_l by (rewrite length_app; simpl; lia).
      rewrite lookup_app_r, Nat.sub_diag by lia. reflexivity.
    + destruct (test highlightRegex l) eqn:Hh; [discriminate |].
      rewrite bottomStep_idle by auto. apply IH, Hq.
Qed.

Lemma bottomLoop_app h pre post :
  forall bms,
    Forall (fun l => startsWith "%" l = false) pre ->
    bottomLoop h (pre ++ post) bms = bottomLoop h post (bottomLoop h pre bms).
Proof.
  induction pre as [| l pre IH]; intros bms Hp; simpl; [reflexivity |].
  inversion Hp as [| ? ? Hl Hp']; subst. rewrite Hl. apply IH, Hp'.
Qed.

(** *** The other two scans *)

Lemma relatedInfoMsg_run rest :
  relatedInfoMsg rest = map elaborationText (elaborationRun rest).
Proof.
  induction rest as [| l rest IH]; simpl; [reflexivity |].
  rewrite test_exec.
  destruct (exec topRelatedInfoRegex l) eqn:E; simpl; [| reflexivity].
  unfold elaborationText at 1. rewrite E, IH. reflexivity.
Qed.

(** The first highlight line of the block sizes the range. *)
Lemma endColNum_first c pre hl post m :
  Forall (fun l => startsWith "%" l = false /\ exec highlightRegex l = None) pre ->
  startsWith "%" hl = false ->
  exec highlightRegex hl = Some m ->
  endColNum c (pre ++ hl :: post) = num_add c (group_length m "highlight").
Proof.
  intros Hpre Hp Hm. induction Hpre as [| l pre [Hl1 Hl2] _ IH]; simpl.
  - rewrite Hp, Hm. reflexivity.
  - rewrite Hl1, Hl2. exact IH.
Qed.

(** *** Where the diagnostics of a pass come from *)

Lemma diagnosticsOf_structured stderrLines i rex file fd fd' f :
  structured stderrLines i rex file fd = Some fd' ->
  diagnosticsOf fd' f =
  diagnosticsOf fd f ++
  (if (Nat.ltb 0 (String.length (matched rex)) && negb (isNaN (lineNum rex)))%bool
   then if decide (file = f) then [diagnosticOf stderrLines i rex file] else []
   else []).
Proof.
  intros E. apply structured_Some in E as ->. unfold pushDiag, diagnosticsOf.
  destruct (Nat.ltb 0 (String.length (matched rex))); simpl;
    [| rewrite app_nil_r; reflexivity].
  destruct (isNaN (lineNum rex)); simpl; [rewrite app_nil_r; reflexivity |].
  destruct (decide (file = f)) as [-> | Hne].
  - rewrite lookup_insert_eq. reflexivity.
  - rewrite lookup_insert_ne by exact Hne. rewrite app_nil_r. reflexivity.
Qed.

(** *** One line of the pass *)

Lemma lintLine_null_rex isWindows stderrLines i line st :
  startsWith "%" line = true ->
  exec errorParserRegex line = None ->
  lintLine isWindows stderrLines i line st = TypeError (logged st).
Proof. intros Hp Hx. unfold lintLine. rewrite Hp, Hx. reflexivity. Qed.

(** The diagnostics a line adds: none, or the one built for it. *)
Lemma lintLine_diagnostics isWindows stderrLines i line st st' f :
  lintLine isWindows stderrLines i line st = Returns st' ->
  diagnosticsOf (filesDiag st') f = diagnosticsOf (filesDiag st) f \/
  exists rex,
    startsWith "%" line = true /\ exec errorParserRegex line = Some rex /\
    isNaN (lineNum rex) = false /\
    diagnosticsOf (filesDiag st') f =
    diagnosticsOf (filesDiag st) f ++ [diagnosticOf stderrLines i rex f].
Proof.
  intros H. destruct (startsWith "%" line) eqn:Hp.
  - destruct (exec errorParserRegex line) as [rex |] eqn:Hx.
    + destruct (lintLine_header isWindows stderrLines i line st rex Hp Hx) as [lv E].
      rewrite E in H.
      destruct (truthy (group rex "filePath")) as [path |]; simpl in H;
        [| injection H as <-; auto].
      destruct (structured _ _ _ _ _) eqn:Es; [| discriminate].
      injection H as <-. simpl.
      rewrite (diagnosticsOf_structured _ _ _ _ _ _ f Es), diagnosticsOf_ensureFile.
      rewrite (errorParser_matched_nonempty line rex Hx). simpl.
      destruct (isNaN (lineNum rex)) eqn:Hn; simpl;
        [left; apply app_nil_r |].
      match goal with
      | |- context [decide (?a = f)] => destruct (decide (a = f)) as [<- | Hne]
      end; [| left; apply app_nil_r].
      right. exists rex. auto.
    + rewrite lintLine_null_rex in H by assumption. discriminate.
  - destruct (lintLine_plain isWindows stderrLines i line st Hp) as [lv E].
    rewrite E in H. injection H as <-. auto.
Qed.

(** A header with a file and a line number adds its diagnostic to the
    file, and is logged as well. *)
Lemma lintLine_emits (isWindows : bool) stderrLines i line st rex path :
  startsWith "%" line = true ->
  exec errorParserRegex line = Some rex ->
  truthy (group rex "filePath") = Some path ->
  isNaN (lineNum rex) = false ->
  let file := if isWindows then replaceBackslashes path else path in
  visitThrows stderrLines i rex file = false ->
  exists lv st',
    lintLine isWindows stderrLines i line st = Returns st' /\
    logged st' = logged st ++ [(lv, line)] /\
    diagnosticsOf (filesDiag st') file =
    diagnosticsOf (filesDiag st) file ++ [diagnosticOf stderrLines i rex file].
Proof.
  intros Hp Hx Hf Hn file Hv.
  destruct (lintLine_header isWindows stderrLines i line st rex Hp Hx) as [lv E].
  rewrite Hf in E. simpl in E. fold file in E.
  destruct (structured_total stderrLines i rex file
              (ensureFile file (filesDiag st)) Hv) as [fd' Es].
  rewrite Es in E. exists lv. eexists. split; [exact E |]. simpl. split; [reflexivity |].
  rewrite (diagnosticsOf_structured _ _ _ _ _ _ file Es), diagnosticsOf_ensureFile.
  rewrite (errorParser_matched_nonempty line rex Hx), Hn. simpl.
  destruct (decide (file = file)); [reflexivity | contradiction].
Qed.

(** A header whose line number is not a number adds nothing. *)
Lemma lintLine_dropped isWindows stderrLines i line st rex :
  startsWith "%" line = true ->
  exec errorParserRegex line = Some rex ->
  isNaN (lineNum rex) = true ->
  forall st',
    lintLine isWindows stderrLines i line st = Returns st' ->
    forall f, diagnosticsOf (filesDiag st') f = diagnosticsOf (filesDiag st) f.
Proof.
  intros Hp Hx Hn st' H f.
  destruct (lintLine_header isWindows stderrLines i line st rex Hp Hx) as [lv E].
  rewrite E in H. destruct (truthy (group rex "filePath")); simpl in H;
    [| injection H as <-; reflexivity].
  destruct (structured _ _ _ _ _) eqn:Es; [| discriminate].
  injection H as <-. simpl.
  rewrite (diagnosticsOf_structured _ _ _ _ _ _ f Es), diagnosticsOf_ensureFile,
    Hn, andb_false_r.
  apply app_nil_r.
Qed.

(** Whether the visit of a line returns does not depend on the state. *)
Lemma lintLine_returns_anyway isWindows stderrLines i line st1 st1' st2 :
  lintLine isWindows stderrLines i line st1 = Returns st1' ->
  exists st2', lintLine isWindows stderrLines i line st2 = Returns st2'.
Proof.
  intros H. destruct (startsWith "%" line) eqn:Hp.
  - destruct (exec errorParserRegex line) as [rex |] eqn:Hx.
    + destruct (lintLine_header isWindows stderrLines i line st1 rex Hp Hx) as [lv1 E1].
      destruct (lintLine_header isWindows stderrLines i line st2 rex Hp Hx) as [lv2 E2].
      rewrite E1 in H. rewrite E2.
      destruct (truthy (group rex "filePath")); simpl in *; [| eauto].
      destruct (structured _ _ _ _ (ensureFile _ (filesDiag st1))) eqn:Es;
        [| discriminate].
      eapply structured_any in Es as [fd2 ->]. eauto.
    + unfold lintLine in H. rewrite Hp, Hx in H. discriminate.
  - destruct (lintLine_plain isWindows stderrLines i line st2 Hp) as [lv E]. eauto.
Qed.

Lemma forEach_plain isWindows stderrLines conts :
  forall i st,
    Forall (fun l => startsWith "%" l = false) conts ->
    exists st',
      forEach isWindows stderrLines conts i st = Returns st' /\
      filesDiag st' = filesDiag st.
Proof.
  induction conts as [| l conts IH]; intros i st Hc; simpl.
  - eauto.
  - inversion Hc as [| ? ? Hl Hc']; subst.
    destruct (lintLine_plain isWindows stderrLines i l st Hl) as [lv ->].
    destruct (IH (S i) (log lv l st) Hc') as (st' & -> & E).
    exists st'. split; [reflexivity | exact E].
Qed.

(** *** The whole pass *)

Lemma forEach_emitted isWindows stderrLines todo :
  forall i st st',
    drop i stderrLines = todo ->
    forEach isWindows stderrLines todo i st = Returns st' ->
    forall f d,
      d ∈ diagnosticsOf (filesDiag st') f ->
      d ∈ diagnosticsOf (filesDiag st) f \/ emitted stderrLines f d.
Proof.
  induction todo as [| line todo IH]; intros i st st' Hd H f d Hin; simpl in H.
  - injection H as <-. auto.
  - destruct (lintLine isWindows stderrLines i line st) as [st1 | |] eqn:E;
      [| discriminate ..].
    assert (Hi : stderrLines !! i = Some line).
    { rewrite <- (Nat.add_0_r i), <- lookup_drop, Hd. reflexivity. }
    assert (Hd' : drop (S i) stderrLines = todo).
    { change (S i) with (1 + i)%nat. rewrite Nat.add_comm, <- drop_drop, Hd.
      reflexivity. }
    destruct (IH (S i) st1 st' Hd' H f d Hin) as [Hold | Hem]; [| auto].
    destruct (lintLine_diagnostics _ _ _ _ _ _ f E)
      as [Heq | (rex & Hp & Hx & _ & Heq)]; rewrite Heq in Hold; [auto |].
    apply elem_of_app in Hold as [Hold | Hnew]; [auto |].
    apply list_elem_of_singleton in Hnew as ->.
    right. exists i, line, rex. auto.
Qed.

End LintFacts.

(** ** The claims *)

Module Claims.
Import Regex Patterns Lint Facts RegexFacts LintFacts.
Local Open Scope list_scope.

Local Arguments startsWith : simpl never.

(** *** The examples of the specification, run on the model *)

(** A header [file:12:5] gives line 11 and column 4, a header without a
    column gives column 0, and the range is open without a highlight. *)
Example line_column_conversion :
  ranges (callback false ∅ "%Error: foo.sv:12:5: msg") "foo.sv"
    = [Range4 (Int 11) (Int 4) (Int 11) MAX_VALUE] /\
  ranges (callback false ∅ "%Error: foo.sv:12: msg") "foo.sv"
    = [Range4 (Int 11) (Int 0) (Int 11) MAX_VALUE].
Proof. split; vm_compute; reflexivity. Qed.

(** A plain line after a warning is logged as a warning. *)
Example severity_backfill :
  passthrough (callback false ∅ (joinLines
    ["%Warning: a.sv:1:1: m1"; "extra detail"]))
  = [(LogWarn, "%Warning: a.sv:1:1: m1"); (LogWarn, "extra detail")].
Proof. vm_compute. reflexivity. Qed.

(** The end-to-end scenario. *)
Example end_to_end :
  let here := Range4 (Int 9) (Int 2) (Int 9) MAX_VALUE in
  collection (callback false ∅ (joinLines
    ["%Warning-WIDTH: top.sv:10:3: Width mismatch";
     "           : ... In instance top"]))
  = {[ "top.sv" :=
       [mkDiagnostic Warning here (Some "Width mismatch") "verilator" (Some "WIDTH")
          [mkRelated (mkLocation "top.sv" here) (Some "In instance top")]] ]}.
Proof. vm_compute. reflexivity. Qed.

(** C1 (the code breaks the claim): a line that starts with [%] and has
    no [": "] after its severity word makes the pass fail.  On the text
    [%Error] the pattern of the header does not match, [exec] gives
    [null], and reading [rex.groups] throws before anything is logged or
    published: the collection is left as it was. *)
Theorem C1_header_without_colon_throws (isWindows : bool) (dc : DiagnosticSet) :
  callback isWindows dc "%Error" = mkPass [] dc false.
Proof. destruct isWindows; reflexivity. Qed.

(** A header whose line number is 0 ends the pass as well, after it was
    logged: the range of line -1 cannot be built.  So does a secondary
    message with a line number 0 of its own, under a header that is
    dropped. *)
Example line_number_zero_throws (dc : DiagnosticSet) :
  callback false dc "%Error: foo.sv:0:1: msg"
    = mkPass [(LogError, "%Error: foo.sv:0:1: msg")] dc false /\
  callback false dc (joinLines ["%Error: foo.sv: msg"; "  t.v:0:1: ... x"; "later"])
    = mkPass [(LogError, "%Error: foo.sv: msg")] dc false.
Proof. split; vm_compute; reflexivity. Qed.

(** C2 (the code breaks the claim): a header whose line number is not a
    valid integer is dropped, but its text can still come out as a related
    message.  The scan for additional messages (lines 236-253) does not
    stop at a line that starts with [%], as the other two scans do: below,
    the second line is such a header, the block of the first header is
    empty, and yet the diagnostic of [a.sv] carries the related message
    [x] read off the dropped header. *)
Theorem C2_dropped_header_feeds_earlier_diagnostic :
  let dropped := "%Error: foo.sv:NOTANUMBER:  : ... x" in
  let stderrLines := ["%Error: a.sv:1:1: m"; dropped] in
  let p := callback false ∅ (joinLines stderrLines) in
  (exists rex,
      exec errorParserRegex dropped = Some rex /\ isNaN (lineNum rex) = true) /\
  block (drop 1 stderrLines) = [] /\
  completed p = true /\
  map (fun d => map rmessage (relatedInformation d))
      (diagnosticsOf (collection p) "a.sv") = [[Some "x"]].
Proof.
  split; [eexists; split; vm_compute; reflexivity |].
  repeat split; vm_compute; reflexivity.
Qed.

(** The visit of such a header and of the lines of its block adds no
    diagnostic to any file. *)
Lemma dropped_header_adds_nothing
    (isWindows : bool) (stderrLines : list string) (h : nat) (line : string)
    (rex : result) (conts : list string) (st st' : State) :
  startsWith "%" line = true ->
  exec errorParserRegex line = Some rex ->
  isNaN (lineNum rex) = true ->
  Forall (fun l => startsWith "%" l = false) conts ->
  forEach isWindows stderrLines (line :: conts) h st = Returns st' ->
  forall file,
    diagnosticsOf (filesDiag st') file = diagnosticsOf (filesDiag st) file.
Proof.
  intros Hp Hx Hn Hc H file. simpl in H.
  destruct (lintLine isWindows stderrLines h line st) as [st1 | |] eqn:E;
    [| discriminate ..].
  rewrite <- (lintLine_dropped isWindows stderrLines h line st rex Hp Hx Hn st1 E file).
  destruct (forEach_plain isWindows stderrLines conts (S h) st1 Hc)
    as (st2 & E2 & Hfd).
  rewrite E2 in H. injection H as <-. rewrite Hfd. reflexivity.
Qed.

(** The drop rule on the two shapes of header: the text of the
    specification leaves the set empty, a header with a file and no line
    number leaves an entry without diagnostics. *)
Example drop_rule_examples :
  collection (callback false ∅ "%Error: foo.sv:NOTANUMBER: msg") = ∅ /\
  diagnosticsOf (collection (callback false ∅ "%Error: foo.sv: msg")) "foo.sv" = [].
Proof. split; vm_compute; reflexivity. Qed.

(** C3 (amended): the message built for a secondary line has the line's
    own location, with end column [MAX_VALUE], when the line carries
    one, and the range of the header's diagnostic when it carries none;
    it is appended to the messages of the block, and it is still so in
    the diagnostic when no highlight line is met before the next
    secondary message. *)
Theorem C3_secondary_message_location
    (stderrLines : list string) (i : nat) (rex : result) (file : string)
    (pre post : list string) (line : string) (matched : result) :
  drop (S i) stderrLines = pre ++ line :: post ->
  Forall (fun l => startsWith "%" l = false) pre ->
  startsWith "%" line = false ->
  exec bottomMessageRegex line = Some matched ->
  let h := headerOf stderrLines i rex file in
  let d := diagnosticOf stderrLines i rex file in
  let before := bottomLoop h pre [] in
  let built := bottomMessage h matched in
  (forall own,
      truthy (group matched "filePath") = Some own ->
      location built =
      mkLocation (Uri_file own)
        (Range4 (num_add (Number (group matched "lineNumber")) (-1))
                (num_add (Number (group matched "columnNumber")) (-1))
                (num_add (Number (group matched "lineNumber")) (-1))
                MAX_VALUE)) /\
  (truthy (group matched "filePath") = None ->
   location built = mkLocation (Uri_file file) (drange d)) /\
  (before = [] \/ test highlightRegex line = false ->
   bottomStep h line before = before ++ [built] /\
   (unrefined post = true ->
    relatedInformation d !! List.length before = Some built)).
Proof.
  intros Hd Hpre Hp Hm h d before built. repeat split.
  - intros own Hown. unfold built, bottomMessage, currentMessageLocation. simpl.
    rewrite Hown. reflexivity.
  - intros Hnone. unfold built, bottomMessage, currentMessageLocation. simpl.
    rewrite Hnone. reflexivity.
  - apply bottomStep_push; assumption.
  - intros Hq.
    assert (Hl : bottomLoop h (pre ++ line :: post) [] !! List.length before
                 = Some built).
    { rewrite (bottomLoop_app h pre (line :: post) [] Hpre). fold before.
      cbn [bottomLoop]. rewrite Hp, (bottomStep_push h line before matched Hm H).
      apply bottomLoop_unrefined, Hq. }
    unfold d, diagnosticOf, mainMessageDiag. cbn [relatedInformation].
    rewrite Hd. rewrite lookup_app_l; [exact Hl |].
    apply lookup_lt_is_Some. fold h. rewrite Hl. eauto.
Qed.

Lemma C3_witness :
  exists matched,
    exec bottomMessageRegex "        ... note: see also" = Some matched /\
    let stderrLines :=
      ["%Error: foo.sv:12:5: msg"; "   12 | code"; "      | ^~~";
       "        ... note: see also"] in
    forall rex,
      relatedInformation (diagnosticOf stderrLines 0 rex "foo.sv") !! 0%nat =
      Some (bottomMessage (headerOf stderrLines 0 rex "foo.sv") matched).
Proof.
  eexists. split; [vm_compute; reflexivity |].
  intros stderrLines rex.
  refine (proj2 (proj2 (proj2
    (C3_secondary_message_location stderrLines 0 rex "foo.sv"
       ["   12 | code"; "      | ^~~"] [] "        ... note: see also" _
       eq_refl _ eq_refl eq_refl)) (or_introl eq_refl)) eq_refl).
  repeat constructor.
Defined.

(** The claim as it stands fails on an ordinary block: the secondary
    line carries its own [t.v:3:5], and the highlight line after it
    leaves the message with end column 8 instead of [MAX_VALUE]. *)
Lemma C3_highlight_after_secondary_message :
  let p := callback false ∅ (joinLines
    ["%Warning-WIDTH: t.v:5:10: Operator ASSIGNW expects 8 bits";
     "    5 |   assign a = b;";
     "      |          ^";
     "                 t.v:3:5: ... Location of original declaration";
     "    3 |  wire a;";
     "      |       ^~~~"]) in
  (exists matched,
      exec bottomMessageRegex
        "                 t.v:3:5: ... Location of original declaration" = Some matched /\
      truthy (group matched "filePath") = Some "t.v") /\
  relatedEnds p "t.v" = [[mkPosition (Int 2) (Int 8)]] /\
  relatedEnds p "t.v" <> [[mkPosition (Int 2) MAX_VALUE]].
Proof.
  split; [eexists; split; vm_compute; reflexivity |].
  split; [vm_compute; reflexivity |].
  vm_compute. discriminate.
Qed.

(** C4 (amended): once a secondary message has been pushed, every
    highlight line of the block that is not itself a message resets the
    end of the message pushed last to its start column plus the length
    of the caret and tildes, and changes nothing else; a second highlight
    line in a row does so again, on the same message. *)
Theorem C4_highlight_lines_refine_last_message
    (h : Header) (init : list DiagnosticRelatedInformation)
    (last : DiagnosticRelatedInformation) (hl1 hl2 : string) (m1 m2 : result)
    (rest : list string) :
  startsWith "%" hl1 = false -> startsWith "%" hl2 = false ->
  exec bottomMessageRegex hl1 = None -> exec bottomMessageRegex hl2 = None ->
  exec highlightRegex hl1 = Some m1 -> exec highlightRegex hl2 = Some m2 ->
  let refined len :=
    mkRelated
      (mkLocation (uri (location last))
         (mkRange (start (range (location last)))
            (mkPosition (line (start (range (location last))))
               (num_add (character (start (range (location last)))) len))))
      (rmessage last) in
  bottomStep h hl1 (init ++ [last]) = init ++ [refined (group_length m1 "highlight")] /\
  bottomLoop h (hl1 :: hl2 :: rest) (init ++ [last]) =
  bottomLoop h rest (init ++ [refined (group_length m2 "highlight")]).
Proof.
  intros Hp1 Hp2 Hb1 Hb2 Hh1 Hh2 refined.
  split; [apply bottomStep_highlight; assumption |].
  simpl. rewrite Hp1, Hp2.
  rewrite (bottomStep_highlight h hl1 init last m1 Hb1 Hh1).
  rewrite (bottomStep_highlight h hl2 init _ m2 Hb2 Hh2).
  reflexivity.
Qed.

Lemma C4_witness :
  exists m2,
    exec highlightRegex "      |     ^~~~~" = Some m2 /\
    group_length m2 "highlight" = 5 /\
    forall (h : Header) (last : DiagnosticRelatedInformation),
      bottomLoop h ["      |     ^~"; "      |     ^~~~~"] ([] ++ [last]) =
      bottomLoop h []
        ([] ++ [mkRelated
           (mkLocation (uri (location last))
              (mkRange (start (range (location last)))
                 (mkPosition (line (start (range (location last))))
                    (num_add (character (start (range (location last))))
                       (group_length m2 "highlight")))))
           (rmessage last)]).
Proof.
  eexists. split; [vm_compute; reflexivity |]. split; [reflexivity |].
  intros h last.
  refine (proj2 (C4_highlight_lines_refine_last_message h [] last
    "      |     ^~" "      |     ^~~~~" _ _ [] eq_refl eq_refl eq_refl eq_refl _ _)).
  - vm_compute. reflexivity.
  - vm_compute. reflexivity.
Defined.

(** The claim as it stands fails: with one highlight line after the
    secondary message its end column is 4 + 2, and a second highlight
    line in a row moves it to 4 + 5. *)
Lemma C4_second_highlight_line_changes_range :
  relatedEnds (callback false ∅ (joinLines
    ["%Warning-WIDTH: t.v:5:10: Operator ASSIGNW expects 8 bits";
     "                 t.v:3:5: ... Location of original declaration";
     "      |     ^~"])) "t.v" = [[mkPosition (Int 2) (Int 6)]] /\
  relatedEnds (callback false ∅ (joinLines
    ["%Warning-WIDTH: t.v:5:10: Operator ASSIGNW expects 8 bits";
     "                 t.v:3:5: ... Location of original declaration";
     "      |     ^~";
     "      |     ^~~~~"])) "t.v" = [[mkPosition (Int 2) (Int 9)]].
Proof. split; vm_compute; reflexivity. Qed.

(** C5 (the code breaks the claim): the collection is cleared and filled
    at the end of a pass only (lines 442-452).  A second pass that throws
    on a header the pattern does not match never gets there: the
    collection stays as the first pass left it, and [b.sv] keeps its
    diagnostic although the second text has none for it. *)
Theorem C5_failed_second_pass_keeps_first :
  let after1 :=
    collection (callback false ∅ (joinLines
      ["%Error: a.sv:1:1: m1"; "%Warning: b.sv:2:2: m2"])) in
  let second := callback false after1 (joinLines ["%Error: a.sv:1:1: m1"; "%Error"]) in
  completed second = false /\
  collection second = after1 /\
  map message (diagnosticsOf (collection second) "b.sv") = [Some "m2"].
Proof. repeat split; vm_compute; reflexivity. Qed.

(** A second pass that runs to its end leaves what it published, whatever
    the collection held before. *)
Lemma completed_pass_replaces
    (isWindows : bool) (dc : DiagnosticSet) (stderr : string) (st : State) :
  parse isWindows stderr = Returns st ->
  collection (callback isWindows dc stderr) = publish (filesDiag st) ∅.
Proof. intros H. unfold callback. rewrite H. reflexivity. Qed.

(** C6 (amended): when the start column of the header is 4, the first
    line of its block that matches the highlight pattern has a caret and
    four tildes as its highlight, and every range of the visit can be
    built, the diagnostic that the header adds to its file ends at column
    4 + 5 = 9. *)
Theorem C6_first_highlight_line_sizes_range
    (isWindows : bool) (stderrLines : list string) (i : nat) (line : string)
    (st : State) (rex : result) (path : string)
    (pre post : list string) (hl : string) (m : result) :
  startsWith "%" line = true ->
  exec errorParserRegex line = Some rex ->
  truthy (group rex "filePath") = Some path ->
  isNaN (lineNum rex) = false ->
  colNum rex = Int 4 ->
  drop (S i) stderrLines = pre ++ hl :: post ->
  Forall (fun l => startsWith "%" l = false /\ exec highlightRegex l = None) pre ->
  startsWith "%" hl = false ->
  exec highlightRegex hl = Some m ->
  group m "highlight" = Some "^~~~~" ->
  let file := if isWindows then replaceBackslashes path else path in
  visitThrows stderrLines i rex file = false ->
  exists st' d,
    lintLine isWindows stderrLines i line st = Returns st' /\
    diagnosticsOf (filesDiag st') file = diagnosticsOf (filesDiag st) file ++ [d] /\
    drange d = Range4 (lineNum rex) (Int 4) (lineNum rex) (Int 9).
Proof.
  intros Hp Hx Hf Hn Hc Hd Hpre Hhp Hh Hg file Hv.
  destruct (lintLine_emits isWindows stderrLines i line st rex path Hp Hx Hf Hn Hv)
    as (lv & st' & E & _ & Hdiag).
  exists st', (diagnosticOf stderrLines i rex file).
  split; [exact E |]. split; [exact Hdiag |].
  unfold diagnosticOf, mainMessageDiag, headerOf, headerRange. cbn [drange hLine hCol hEnd].
  rewrite Hd, (endColNum_first (colNum rex) pre hl post m Hpre Hhp Hh), Hc.
  unfold group_length. rewrite Hg. reflexivity.
Qed.

Lemma C6_witness :
  exists rex,
    exec errorParserRegex "%Error: foo.sv:12:5: msg" = Some rex /\
    lineNum rex = Int 11 /\
    exists st' d,
      lintLine false
        ["%Error: foo.sv:12:5: msg"; "   12 | code"; "      |     ^~~~~"]
        0 "%Error: foo.sv:12:5: msg" (mkState [] ∅) = Returns st' /\
      diagnosticsOf (filesDiag st') "foo.sv" = [] ++ [d] /\
      drange d = Range4 (lineNum rex) (Int 4) (lineNum rex) (Int 9).
Proof.
  eexists. split; [vm_compute; reflexivity |]. split; [reflexivity |].
  refine (C6_first_highlight_line_sizes_range false
    ["%Error: foo.sv:12:5: msg"; "   12 | code"; "      |     ^~~~~"] 0
    "%Error: foo.sv:12:5: msg" (mkState [] ∅) _ "foo.sv"
    ["   12 | code"] [] "      |     ^~~~~" _
    eq_refl _ _ _ _ eq_refl _ eq_refl (_ : _ = Some _) _ _).
  - vm_compute. reflexivity.
  - reflexivity.
  - reflexivity.
  - reflexivity.
  - repeat constructor.
  - vm_compute. reflexivity.
  - reflexivity.
  - vm_compute. reflexivity.
Defined.

(** The claim as it stands fails: the block holds a line with a caret
    and four tildes, but an earlier highlight line sized the range, and
    the end column is 5. *)
Lemma C6_earlier_highlight_line_wins :
  ranges (callback false ∅ (joinLines
    ["%Error: foo.sv:12:5: msg"; "      | ^"; "      |      ^~~~~"])) "foo.sv"
  = [Range4 (Int 11) (Int 4) (Int 11) (Int 5)].
Proof. vm_compute. reflexivity. Qed.

(** Carets with no bar before them are not a highlight: the range stays
    open. *)
Example carets_without_bar :
  ranges (callback false ∅ (joinLines
    ["%Error: foo.sv:12:5: msg"; "      ^~~~~"])) "foo.sv"
  = [Range4 (Int 11) (Int 4) (Int 11) MAX_VALUE].
Proof. vm_compute. reflexivity. Qed.

(** C7 (amended): a pass that runs to its end has handed every line of
    the text to the sink, once and in the order of the text, whether a
    diagnostic was built from the line or not. *)
Theorem C7_every_line_is_passed_through
    (isWindows : bool) (dc : DiagnosticSet) (stderr : string) :
  completed (callback isWindows dc stderr) = true ->
  map snd (passthrough (callback isWindows dc stderr)) = split_lines stderr.
Proof.
  unfold callback, parse. intros H.
  destruct (forEach isWindows (split_lines stderr) (split_lines stderr) 0
              (mkState [] ∅)) as [st | |] eqn:E; [| discriminate ..].
  simpl. apply forEach_logged in E. exact E.
Qed.

Lemma C7_witness :
  map snd (passthrough (callback false ∅ (joinLines
    ["%Warning-WIDTH: top.sv:10:3: Width mismatch";
     "           : ... In instance top"])))
  = split_lines (joinLines
    ["%Warning-WIDTH: top.sv:10:3: Width mismatch";
     "           : ... In instance top"]).
Proof.
  apply C7_every_line_is_passed_through. vm_compute. reflexivity.
Defined.

(** The claim as it stands fails: the header below gains a diagnostic
    and is handed to the sink as well. *)
Lemma C7_header_with_diagnostic_is_logged :
  let p := callback false ∅ "%Error: foo.sv:12:5: msg" in
  passthrough p = [(LogError, "%Error: foo.sv:12:5: msg")] /\
  ranges p "foo.sv" = [Range4 (Int 11) (Int 4) (Int 11) MAX_VALUE].
Proof. split; vm_compute; reflexivity. Qed.

(** C8 (amended): the empty text is one empty line; the pass publishes
    the empty set and hands that one line to the sink, as an error. *)
Theorem C8_empty_text (isWindows : bool) (dc : DiagnosticSet) :
  callback isWindows dc EmptyString = mkPass [(LogError, EmptyString)] ∅ true.
Proof. destruct isWindows; reflexivity. Qed.

(** The claim as it stands fails: something is passed through. *)
Lemma C8_empty_text_logs_a_line : passthrough (callback false ∅ EmptyString) <> [].
Proof. vm_compute. discriminate. Qed.

(** C9 (the code breaks the claim): the elaboration messages of a
    diagnostic are not confined to its block.  The scan for them (lines
    236-253) stops at the first line that the pattern does not match and
    never asks whether a line starts with [%], as the scans for the
    highlight and for the secondary messages do.  Below, the block of the
    first header is empty, and its diagnostic still has a related message:
    the text [y] of the header that follows, which has a diagnostic of
    its own. *)
Theorem C9_elaboration_scan_crosses_header :
  let stderrLines := ["%Error: a.sv:1:1: m"; "%Warning: b.sv:2:2: also : ... y"] in
  let p := callback false ∅ (joinLines stderrLines) in
  block (drop 1 stderrLines) = [] /\
  secondaryTexts (block (drop 1 stderrLines)) ++
    map elaborationText (elaborationRun (block (drop 1 stderrLines))) = [] /\
  completed p = true /\
  map (fun d => map rmessage (relatedInformation d))
      (diagnosticsOf (collection p) "a.sv") = [[Some "y"]] /\
  map message (diagnosticsOf (collection p) "b.sv") = [Some "also : ... y"].
Proof. repeat split; vm_compute; reflexivity. Qed.

(** The order itself is as the claim has it: every diagnostic of the set
    of a pass was built for the header at some line [i] of the text, and
    its related messages are the secondary messages of the block after
    [i], in the order of their lines, followed by the messages of the run
    of elaboration lines after [i], in the order of their lines, each at
    the diagnostic's own location. *)
Lemma related_messages_order
    (isWindows : bool) (stderr : string) (st : State) (file : string)
    (d : Diagnostic) :
  parse isWindows stderr = Returns st ->
  d ∈ diagnosticsOf (filesDiag st) file ->
  exists i line rex,
    let stderrLines := split_lines stderr in
    let rest := drop (S i) stderrLines in
    let secondary := bottomLoop (headerOf stderrLines i rex file) rest [] in
    let here := mkLocation (Uri_file file) (drange d) in
    stderrLines !! i = Some line /\
    exec errorParserRegex line = Some rex /\
    relatedInformation d =
      secondary ++ map (fun l => mkRelated here (elaborationText l)) (elaborationRun rest) /\
    map rmessage secondary = secondaryTexts (block rest) /\
    map rmessage (relatedInformation d) =
      secondaryTexts (block rest) ++ map elaborationText (elaborationRun rest).
Proof.
  intros H Hin. unfold parse in H.
  destruct (forEach_emitted isWindows _ _ 0 _ _ eq_refl H file d Hin)
    as [Hemp | (i & line & rex & Hi & _ & Hx & ->)].
  - unfold diagnosticsOf in Hemp. cbn [filesDiag] in Hemp.
    rewrite lookup_empty in Hemp. simpl in Hemp.
    apply elem_of_nil in Hemp. contradiction.
  - exists i, line, rex. cbv zeta.
    split; [exact Hi |]. split; [exact Hx |].
    assert (Hrel : relatedInformation (diagnosticOf (split_lines stderr) i rex file) =
              bottomLoop (headerOf (split_lines stderr) i rex file)
                (drop (S i) (split_lines stderr)) [] ++
              map (fun l => mkRelated
                     (mkLocation (Uri_file file)
                        (drange (diagnosticOf (split_lines stderr) i rex file)))
                     (elaborationText l))
                  (elaborationRun (drop (S i) (split_lines stderr)))).
    { unfold diagnosticOf, mainMessageDiag. cbn [relatedInformation drange].
      rewrite relatedInfoMsg_run, map_map. reflexivity. }
    split; [exact Hrel |].
    split; [apply bottomLoop_rmessage |].
    rewrite Hrel, map_app, bottomLoop_rmessage, map_map. reflexivity.
Qed.

(** C10: a header that names a file and has no line number still gets
    its file an entry: the line creates the entry, empty, when the file
    had none, adds no diagnostic to any file, and the entry is there in
    the set that the pass publishes. *)
Theorem C10_dropped_header_leaves_entry
    (isWindows : bool) (dc : DiagnosticSet) (stderr : string)
    (h : nat) (line : string) (rex : result) (path : string) :
  completed (callback isWindows dc stderr) = true ->
  split_lines stderr !! h = Some line ->
  startsWith "%" line = true ->
  exec errorParserRegex line = Some rex ->
  truthy (group rex "filePath") = Some path ->
  group rex "lineNumber" = None ->
  let file := if isWindows then replaceBackslashes path else path in
  is_Some (collection (callback isWindows dc stderr) !! file) /\
  forall st,
    exists st',
      lintLine isWindows (split_lines stderr) h line st = Returns st' /\
      filesDiag st' = ensureFile file (filesDiag st) /\
      (filesDiag st !! file = None -> filesDiag st' !! file = Some []) /\
      (forall f, diagnosticsOf (filesDiag st') f = diagnosticsOf (filesDiag st) f).
Proof.
  intros Hc Hh Hp Hx Hf Hl file.
  assert (Hn : isNaN (lineNum rex) = true) by (unfold lineNum; rewrite Hl; reflexivity).
  unfold callback, parse in *.
  destruct (forEach isWindows (split_lines stderr) (split_lines stderr) 0
              (mkState [] ∅)) as [final | |] eqn:E; [| discriminate ..].
  pose proof (take_drop_middle _ _ _ Hh) as Hsplit.
  rewrite <- Hsplit in E at 2.
  apply forEach_app in E as (mid & _ & E). simpl in E.
  rewrite length_take_le in E by (apply Nat.lt_le_incl, lookup_lt_is_Some; eauto).
  destruct (lintLine isWindows (split_lines stderr) h line mid) as [st1 | |] eqn:E1;
    [| discriminate ..].
  assert (Hstep : forall st, exists st',
             lintLine isWindows (split_lines stderr) h line st = Returns st' /\
             filesDiag st' = ensureFile file (filesDiag st)).
  { intros st.
    destruct (lintLine_returns_anyway _ _ _ _ _ _ st E1) as [st' E'].
    exists st'. split; [exact E' |].
    destruct (lintLine_header isWindows (split_lines stderr) h line st rex Hp Hx)
      as [lv Eh].
    rewrite Eh, Hf in E'. simpl in E'. fold file in E'.
    destruct (structured _ _ _ _ _) eqn:Es; [| discriminate].
    injection E' as <-. apply structured_Some in Es as ->.
    rewrite Hn, andb_false_r. reflexivity. }
  split.
  - cbn [collection]. rewrite publish_eq.
    destruct (Hstep mid) as (st1' & E1' & Hfd).
    rewrite E1 in E1'. injection E1' as <-.
    eapply forEach_keeps; [exact E |]. rewrite Hfd. apply ensureFile_is_Some.
  - intros st. destruct (Hstep st) as (st' & Est & Hfd).
    exists st'. split; [exact Est |]. split; [exact Hfd |]. split.
    + intros Hnone. rewrite Hfd. unfold ensureFile. rewrite Hnone.
      apply lookup_insert_eq.
    + intros f. rewrite Hfd. apply diagnosticsOf_ensureFile.
Qed.

Lemma C10_witness :
  exists rex,
    exec errorParserRegex "%Error: foo.sv: msg" = Some rex /\
    collection (callback false ∅ "%Error: foo.sv: msg") = {[ "foo.sv" := [] ]} /\
    is_Some (collection (callback false ∅ "%Error: foo.sv: msg") !! "foo.sv") /\
    forall st,
      exists st',
        lintLine false (split_lines "%Error: foo.sv: msg") 0
          "%Error: foo.sv: msg" st = Returns st' /\
        filesDiag st' = ensureFile "foo.sv" (filesDiag st) /\
        (filesDiag st !! "foo.sv" = None -> filesDiag st' !! "foo.sv" = Some []) /\
        (forall f, diagnosticsOf (filesDiag st') f = diagnosticsOf (filesDiag st) f).
Proof.
  eexists. split; [vm_compute; reflexivity |].
  split; [vm_compute; reflexivity |].
  refine (C10_dropped_header_leaves_entry false ∅ "%Error: foo.sv: msg" 0
    "%Error: foo.sv: msg" _ "foo.sv" eq_refl eq_refl eq_refl _ _ _).
  - vm_compute. reflexivity.
  - reflexivity.
  - reflexivity.
Defined.

End Claims.

(** ** Facts about matches *)

Module MatchFacts.
Import Regex Patterns Lint Facts RegexFacts More.
Local Open Scope list_scope.

Lemma append_cons (x : ascii) (a b : string) :
  (String x a ++ b)%string = String x (a ++ b)%string.
Proof. reflexivity. Qed.

Lemma append_nil_l (b : string) : (EmptyString ++ b)%string = b.
Proof. reflexivity. Qed.

Lemma append_assoc (a b c : string) : ((a ++ b) ++ c = a ++ (b ++ c))%string.
Proof.
  induction a as [| x a IH]; [reflexivity |].
  rewrite !append_cons, IH. reflexivity.
Qed.

Lemma append_nil_r (a : string) : (a ++ EmptyString)%string = a.
Proof.
  induction a as [| x a IH]; [reflexivity |]. rewrite append_cons, IH. reflexivity.
Qed.

Lemma length_append (a b : string) :
  String.length (a ++ b) = (String.length a + String.length b)%nat.
Proof.
  induction a as [| x a IH]; [reflexivity |].
  rewrite append_cons. simpl. rewrite IH. reflexivity.
Qed.

(** Whatever [rmatch] hands to its continuation is a match. *)
Lemma rmatch_sound {A : Type} (r : regex) :
  forall (s : string) (g : captures) (k : string -> captures -> option A) (x : A),
    rmatch r s g k = Some x ->
    exists s' g', matches r s g s' g' /\ k s' g' = Some x.
Proof.
  induction r as [| c | r1 IH1 r2 IH2 | r1 IH1 r2 IH2 | r1 IH1 | name r1 IH1];
    intros s g k x H; simpl in H.
  - exists s, g. simpl. auto.
  - destruct s as [| a s0]; [discriminate |].
    destruct (cmatch c a) eqn:Hc; [| discriminate].
    exists s0, g. simpl. eauto.
  - apply IH1 in H as (s1 & g1 & M1 & H).
    apply IH2 in H as (s2 & g2 & M2 & H).
    exists s2, g2. simpl. eauto.
  - destruct (rmatch r1 s g k) as [y |] eqn:E1.
    + injection H as ->. apply IH1 in E1 as (s1 & g1 & M1 & H).
      exists s1, g1. simpl. auto.
    + apply IH2 in H as (s2 & g2 & M2 & H).
      exists s2, g2. simpl. auto.
  - revert H. generalize (String.length s) at 1 as n. intros n. revert s g.
    induction n as [| n IHn]; intros s g H.
    + exists s, g. split; [apply iter_done | exact H].
    + match type of H with
      | match ?m with _ => _ end = _ => destruct m as [y |] eqn:E1
      end.
      * injection H as ->. apply IH1 in E1 as (s1 & g1 & M1 & H).
        destruct (Nat.ltb (String.length s1) (String.length s)); [| discriminate].
        apply IHn in H as (s2 & g2 & M2 & H).
        exists s2, g2. split; [| exact H].
        simpl. eapply iter_more; eauto.
      * exists s, g. split; [apply iter_done | exact H].
  - apply IH1 in H as (s1 & g1 & M1 & H).
    exists s1, (<[name := consumed s s1]> g1). simpl. eauto.
Qed.

Lemma exec_sound (r : regex) (line : string) (m : result) :
  exec r line = Some m ->
  exists s s', matches r s ∅ s' (groups m) /\ matched m = consumed s s'.
Proof.
  intros H. apply exec_inv in H as [s0 H]. unfold match_here in H.
  apply rmatch_sound in H as (s' & g' & M & H). injection H as <-.
  exists s0, s'. auto.
Qed.

(** A match consumes a prefix of its input. *)
Lemma matches_prefix (r : regex) :
  forall s g s' g', matches r s g s' g' -> exists t, s = (t ++ s')%string.
Proof.
  induction r as [| c | r1 IH1 r2 IH2 | r1 IH1 r2 IH2 | r1 IH1 | name r1 IH1];
    intros s g s' g' H; simpl in H.
  - destruct H as [-> _]. exists EmptyString. reflexivity.
  - destruct H as (a & -> & _). exists (String a EmptyString). reflexivity.
  - destruct H as (s1 & g1 & H1 & H2).
    apply IH1 in H1 as [t1 ->]. apply IH2 in H2 as [t2 ->].
    exists (t1 ++ t2)%string. rewrite append_assoc. reflexivity.
  - destruct H as [H | H]; eauto.
  - induction H as [s g | s g s1 g1 s' g' Hstep _ [t2 ->]].
    + exists EmptyString. reflexivity.
    + apply IH1 in Hstep as [t1 ->].
      exists (t1 ++ t2)%string. rewrite append_assoc. reflexivity.
  - destruct H as (g1 & H & _). eauto.
Qed.

Lemma consumed_app (t s' : string) : consumed (t ++ s') s' = t.
Proof.
  unfold consumed. rewrite length_append, Nat.add_sub.
  induction t as [| a t IH].
  - rewrite append_nil_l. destruct s'; reflexivity.
  - rewrite append_cons. simpl. rewrite IH. reflexivity.
Qed.

(** A pattern without groups leaves the captures alone. *)
Lemma matches_capture_free (r : regex) :
  capture_free r = true ->
  forall s g s' g', matches r s g s' g' -> g' = g.
Proof.
  induction r as [| c | r1 IH1 r2 IH2 | r1 IH1 r2 IH2 | r1 IH1 | name r1 IH1];
    simpl; intros Hf s g s' g' H.
  - destruct H as [_ ->]. reflexivity.
  - destruct H as (a & _ & _ & ->). reflexivity.
  - apply andb_true_iff in Hf as [Hf1 Hf2].
    destruct H as (s1 & g1 & H1 & H2).
    apply (IH1 Hf1) in H1 as ->. apply (IH2 Hf2) in H2 as ->. reflexivity.
  - apply andb_true_iff in Hf as [Hf1 Hf2].
    destruct H as [H | H]; eauto.
  - induction H as [s g | s g s1 g1 s' g' Hstep _ IH]; [reflexivity |].
    apply (IH1 Hf) in Hstep as ->. exact IH.
  - discriminate.
Qed.

(** Where the value of a group comes from: it is the one of before the
    match, or the text that one of the bodies of that name consumed
    somewhere in the input. *)
Lemma group_origin (name : string) (r : regex) :
  forall s g s' g',
    matches r s g s' g' ->
    g' !! name = g !! name \/
    exists b pre v sb ga gb,
      b ∈ bodies name r /\ s = (pre ++ v ++ sb)%string /\
      matches b (v ++ sb)%string ga sb gb /\
      g' !! name = Some v.
Proof.
  induction r as [| c | r1 IH1 r2 IH2 | r1 IH1 r2 IH2 | r1 IH1 | n r1 IH1];
    intros s g s' g' H; simpl in H.
  - destruct H as [_ ->]. auto.
  - destruct H as (a & _ & _ & ->). auto.
  - destruct H as (s1 & g1 & H1 & H2). simpl.
    destruct (IH2 _ _ _ _ H2) as [E2 | (b & pre & v & sb & ga & gb & Hb & Hs & Hm & E)].
    + rewrite E2.
      destruct (IH1 _ _ _ _ H1) as [E1 | (b & pre & v & sb & ga & gb & Hb & Hs & Hm & E)];
        [auto |].
      right. exists b, pre, v, sb, ga, gb. rewrite elem_of_app. auto.
    + right. apply matches_prefix in H1 as [t1 ->].
      exists b, (t1 ++ pre)%string, v, sb, ga, gb.
      rewrite elem_of_app, append_assoc, Hs. auto.
  - simpl. destruct H as [H | H].
    + destruct (IH1 _ _ _ _ H) as [E1 | (b & pre & v & sb & ga & gb & Hb & Hs & Hm & E)];
        [auto |].
      right. exists b, pre, v, sb, ga, gb. rewrite elem_of_app. auto.
    + destruct (IH2 _ _ _ _ H) as [E1 | (b & pre & v & sb & ga & gb & Hb & Hs & Hm & E)];
        [auto |].
      right. exists b, pre, v, sb, ga, gb. rewrite elem_of_app. auto.
  - simpl. induction H as [s g | s g s1 g1 s' g' Hstep Hrest IH]; [auto |].
    destruct IH as [E2 | (b & pre & v & sb & ga & gb & Hb & Hs & Hm & E)].
    + rewrite E2. apply (IH1 _ _ _ _ Hstep).
    + right. apply matches_prefix in Hstep as [t1 ->].
      exists b, (t1 ++ pre)%string, v, sb, ga, gb.
      rewrite append_assoc, Hs. auto.
  - destruct H as (g1 & H & ->). simpl.
    destruct (String.eqb n name) eqn:En.
    + apply String.eqb_eq in En as ->. right.
      destruct (matches_prefix _ _ _ _ _ H) as [t ->].
      exists r1, EmptyString, t, s', g, g1. rewrite lookup_insert_eq, consumed_app.
      split; [apply list_elem_of_here |].
      split; [reflexivity |]. split; [exact H | reflexivity].
    + apply String.eqb_neq in En. rewrite lookup_insert_ne by exact En.
      destruct (IH1 _ _ _ _ H) as [E1 | (b & pre & v & sb & ga & gb & Hb & Hs & Hm & E)];
        [auto |].
      right. exists b, pre, v, sb, ga, gb. auto.
Qed.

(** Which groups a match sets: those of one way through the pattern. *)
Lemma matches_shape (r : regex) :
  tame r = true ->
  forall s g s' g',
    matches r s g s' g' ->
    exists sh,
      sh ∈ shapes r /\
      forall n, is_Some (g' !! n) <-> is_Some (g !! n) \/ n ∈ sh.
Proof.
  induction r as [| c | r1 IH1 r2 IH2 | r1 IH1 r2 IH2 | r1 IH1 | name r1 IH1];
    simpl; intros Ht s g s' g' H.
  - destruct H as [_ ->]. exists []. split; [apply list_elem_of_here |].
    intros n. rewrite elem_of_nil. tauto.
  - destruct H as (a & _ & _ & ->). exists []. split; [apply list_elem_of_here |].
    intros n. rewrite elem_of_nil. tauto.
  - apply andb_true_iff in Ht as [Ht1 Ht2].
    destruct H as (s1 & g1 & H1 & H2).
    destruct (IH1 Ht1 _ _ _ _ H1) as (sh1 & Hin1 & Hd1).
    destruct (IH2 Ht2 _ _ _ _ H2) as (sh2 & Hin2 & Hd2).
    exists (sh1 ++ sh2). split.
    + apply list_elem_of_In, in_flat_map. exists sh1.
      split; [apply list_elem_of_In, Hin1 |].
      apply in_map, list_elem_of_In, Hin2.
    + intros n. rewrite Hd2, Hd1, elem_of_app. tauto.
  - apply andb_true_iff in Ht as [Ht1 Ht2]. destruct H as [H | H].
    + destruct (IH1 Ht1 _ _ _ _ H) as (sh & Hin & Hd).
      exists sh. rewrite elem_of_app. auto.
    + destruct (IH2 Ht2 _ _ _ _ H) as (sh & Hin & Hd).
      exists sh. rewrite elem_of_app. auto.
  - apply (matches_capture_free (Star r1) Ht) in H as ->.
    exists []. split; [apply list_elem_of_here |].
    intros n. rewrite elem_of_nil. tauto.
  - destruct H as (g1 & H & ->).
    destruct (IH1 Ht _ _ _ _ H) as (sh & Hin & Hd).
    exists (name :: sh). split.
    + apply list_elem_of_In, in_map, list_elem_of_In, Hin.
    + intros n. rewrite elem_of_cons.
      destruct (decide (name = n)) as [-> | Hne].
      * rewrite lookup_insert_eq. split; eauto.
      * rewrite lookup_insert_ne by exact Hne. rewrite Hd.
        split; [tauto |]. intros [? | [? | ?]]; auto. congruence.
Qed.

(** *** The texts of the atoms *)

Lemma matches_Str (lit : string) :
  forall s g s' g',
    matches (Str lit) s g s' g' -> s = (lit ++ s')%string /\ g' = g.
Proof.
  induction lit as [| a lit IH]; simpl; intros s g s' g' H.
  - destruct H as [-> ->]. auto.
  - destruct H as (s1 & g1 & (b & -> & Hb & ->) & H).
    apply IH in H as [-> ->]. apply Ascii.eqb_eq in Hb as ->.
    rewrite append_cons. auto.
Qed.

Lemma matches_class_star (c : cclass) :
  forall s g s' g',
    matches (Star (Chr c)) s g s' g' ->
    exists t, s = (t ++ s')%string /\ all_chars (cmatch c) t = true /\ g' = g.
Proof.
  intros s g s' g' H. simpl in H.
  induction H as [s g | s g s1 g1 s' g' Hstep _ (t & -> & Ht & ->)].
  - exists EmptyString. auto.
  - destruct Hstep as (a & -> & Ha & ->).
    exists (String a t). rewrite append_cons. simpl. rewrite Ha, Ht. auto.
Qed.

Lemma matches_class_plus (c : cclass) :
  forall s g s' g',
    matches (Plus (Chr c)) s g s' g' ->
    exists a t,
      s = (String a t ++ s')%string /\
      all_chars (cmatch c) (String a t) = true /\ g' = g.
Proof.
  intros s g s' g' (s1 & g1 & (a & -> & Ha & ->) & H).
  apply matches_class_star in H as (t & -> & Ht & ->).
  exists a, t. rewrite append_cons. simpl. rewrite Ha, Ht. auto.
Qed.

Lemma append_inv_tail (t1 t2 s : string) :
  (t1 ++ s)%string = (t2 ++ s)%string -> t1 = t2.
Proof.
  intros H. rewrite <- (consumed_app t1 s), <- (consumed_app t2 s), H. reflexivity.
Qed.

(** *** Numbers *)

Lemma digit_value_nonneg (a : ascii) : is_digit a = true -> 0 <= digit_value a.
Proof.
  unfold is_digit, in_range, digit_value. intros H.
  apply andb_true_iff in H as [H _]. apply Nat.leb_le in H. lia.
Qed.

(** A run of decimal digits is a number, never [NaN]. *)
Lemma digits_value_Int (t : string) :
  all_chars is_digit t = true ->
  forall acc, 0 <= acc -> exists z, 0 <= z /\ digits_value acc t = Int z.
Proof.
  induction t as [| a t IH]; simpl; intros Ht acc Hacc.
  - eauto.
  - apply andb_true_iff in Ht as [Ha Ht]. rewrite Ha.
    apply IH; [exact Ht |]. pose proof (digit_value_nonneg a Ha). lia.
Qed.

(** *** Matches found by [exec] *)

Lemma exec_within (r : regex) (line : string) (m : result) :
  exec r line = Some m ->
  exists pre s s',
    line = (pre ++ s)%string /\ matches r s ∅ s' (groups m) /\
    matched m = consumed s s'.
Proof.
  induction line as [| a line IH]; simpl; intros H.
  - destruct (match_here r EmptyString) eqn:E; [| discriminate].
    injection H as ->. unfold match_here in E.
    apply rmatch_sound in E as (s' & g' & M & E). injection E as <-.
    exists EmptyString, EmptyString, s'. auto.
  - destruct (match_here r (String a line)) eqn:E.
    + injection H as ->. unfold match_here in E.
      apply rmatch_sound in E as (s' & g' & M & E). injection E as <-.
      exists EmptyString, (String a line), s'. auto.
    + apply IH in H as (pre & s & s' & -> & M & E').
      exists (String a pre), s, s'. rewrite append_cons. auto.
Qed.

(** The value of a group is a piece of the line, and a text that the body
    of the group matches. *)
Lemma group_text (r : regex) (line : string) (m : result) (name v : string) :
  exec r line = Some m ->
  group m name = Some v ->
  exists b pre post ga gb,
    b ∈ bodies name r /\ line = (pre ++ v ++ post)%string /\
    matches b (v ++ post)%string ga post gb.
Proof.
  intros H Hv. apply exec_within in H as (pre0 & s & s' & -> & M & _).
  unfold group in Hv.
  destruct (group_origin name r _ _ _ _ M)
    as [E | (b & pre & v' & sb & ga & gb & Hb & -> & Hm & E)].
  - rewrite lookup_empty in E. congruence.
  - rewrite Hv in E. injection E as <-.
    exists b, (pre0 ++ pre)%string, sb, ga, gb. rewrite append_assoc. auto.
Qed.

(** The groups that are set are those of one way through the pattern. *)
Lemma group_shape (r : regex) (line : string) (m : result) :
  tame r = true ->
  exec r line = Some m ->
  exists sh, sh ∈ shapes r /\ forall n, is_Some (group m n) <-> n ∈ sh.
Proof.
  intros Ht H. apply exec_within in H as (pre0 & s & s' & -> & M & _).
  destruct (matches_shape r Ht _ _ _ _ M) as (sh & Hin & Hd).
  exists sh. split; [exact Hin |]. intros n. unfold group. rewrite Hd.
  rewrite lookup_empty. split; [intros [[? ?] | ?]; [discriminate | auto] | auto].
Qed.

(** A group of decimal digits, when it is set, reads as a number. *)
Lemma digits_group (r : regex) (line : string) (m : result) (name v : string) :
  bodies name r = [Plus (Chr Digit)] ->
  exec r line = Some m ->
  group m name = Some v ->
  exists z, 0 <= z /\ Number (Some v) = Int z.
Proof.
  intros Hb H Hv.
  destruct (group_text r line m name v H Hv) as (b & pre & post & ga & gb & Hin & _ & M).
  rewrite Hb in Hin. apply list_elem_of_singleton in Hin as ->.
  apply matches_class_plus in M as (a & t & E & Hd & _).
  apply append_inv_tail in E as ->.
  apply (digits_value_Int _ Hd 0). lia.
Qed.

(** Such a group is a run of digits of the line, and not an empty one. *)
Lemma digits_run (r : regex) (line : string) (m : result) (name v : string) :
  bodies name r = [Plus (Chr Digit)] ->
  exec r line = Some m ->
  group m name = Some v ->
  v <> EmptyString /\ all_chars is_digit v = true /\ piece v line.
Proof.
  intros Hb H Hv.
  destruct (group_text r line m name v H Hv) as (b & pre & post & ga & gb & Hin & E' & M).
  rewrite Hb in Hin. apply list_elem_of_singleton in Hin as ->.
  apply matches_class_plus in M as (a & t & E & Hd & _).
  apply append_inv_tail in E as ->.
  split; [discriminate |]. split; [exact Hd |]. exists pre, post. exact E'.
Qed.

Lemma digit_value_le (a : ascii) : is_digit a = true -> digit_value a <= 9.
Proof.
  unfold is_digit, in_range, digit_value. intros H.
  apply andb_true_iff in H as [_ H]. apply Nat.leb_le in H. lia.
Qed.

Lemma digits_value_decimal (t : string) :
  all_chars is_digit t = true ->
  forall acc, digits_value acc t = Int (decimal_from acc t).
Proof.
  induction t as [| a t IH]; simpl; intros Ht acc; [reflexivity |].
  apply andb_true_iff in Ht as [Ha Ht]. rewrite Ha. apply IH, Ht.
Qed.

Lemma decimal_from_bounds (t : string) :
  all_chars is_digit t = true ->
  forall acc, 0 <= acc ->
    acc * 10 ^ Z.of_nat (String.length t) <= decimal_from acc t
    < (acc + 1) * 10 ^ Z.of_nat (String.length t).
Proof.
  induction t as [| a t IH]; intros Ht acc Hacc.
  - simpl. lia.
  - simpl in Ht. apply andb_true_iff in Ht as [Ha Ht].
    pose proof (digit_value_nonneg a Ha). pose proof (digit_value_le a Ha).
    cbn [decimal_from String.length]. rewrite Nat2Z.inj_succ, Z.pow_succ_r by lia.
    specialize (IH Ht (10 * acc + digit_value a) ltac:(lia)).
    assert (0 < 10 ^ Z.of_nat (String.length t)) by (apply Z.pow_pos_nonneg; lia).
    nia.
Qed.

(** A run of at most fifteen digits reads as its value, below 10^15. *)
Lemma decimal_short (v : string) :
  all_chars is_digit v = true -> short v ->
  0 <= decimal v < 10 ^ 15 /\ Number (Some v) = Int (decimal v).
Proof.
  intros Hd Hs. split; [| apply digits_value_decimal, Hd].
  pose proof (decimal_from_bounds v Hd 0 ltac:(lia)) as Hb. unfold decimal.
  assert (10 ^ Z.of_nat (String.length v) <= 10 ^ 15)
    by (apply Z.pow_le_mono_r; unfold short in Hs; lia).
  lia.
Qed.

(** *** Lines without long numbers *)

Lemma short_runs_suffix (n : nat) (pre s : string) :
  short_runs n (pre ++ s) = true -> short_runs n s = true.
Proof.
  induction pre as [| a pre IH]; [rewrite append_nil_l; auto |].
  rewrite append_cons. cbn [short_runs]. intros H.
  apply andb_true_iff in H as [_ H]. apply IH, H.
Qed.

Lemma digit_prefix_run (v post : string) :
  all_chars is_digit v = true ->
  (String.length v <= digit_prefix (v ++ post))%nat.
Proof.
  induction v as [| a v IH]; cbn [all_chars String.length]; intros H; [lia |].
  apply andb_true_iff in H as [Ha H]. rewrite append_cons. cbn [digit_prefix].
  rewrite Ha. specialize (IH H). lia.
Qed.

Lemma short_runs_piece (n : nat) (v line : string) :
  short_runs n line = true -> piece v line ->
  all_chars is_digit v = true -> (String.length v <= n)%nat.
Proof.
  intros Hs (pre & post & ->) Hd. apply short_runs_suffix in Hs.
  pose proof (digit_prefix_run v post Hd).
  destruct (v ++ post)%string; cbn [short_runs] in Hs;
    apply andb_true_iff in Hs as [Hs _]; apply Nat.leb_le in Hs; lia.
Qed.

(** On a modest line a group of digits is short. *)
Lemma digits_short (r : regex) (line : string) (m : result) (name v : string) :
  bodies name r = [Plus (Chr Digit)] ->
  exec r line = Some m ->
  group m name = Some v ->
  modest line = true ->
  all_chars is_digit v = true /\ short v.
Proof.
  intros Hb H Hv Hm. destruct (digits_run r line m name v Hb H Hv) as (_ & Hd & Hp).
  split; [exact Hd |]. apply andb_true_iff in Hm as [Hm _].
  apply (short_runs_piece 15 v line Hm Hp Hd).
Qed.

(** The length of a group is at most that of the line. *)
Lemma group_length_le (r : regex) (line : string) (m : result) (name : string) :
  exec r line = Some m ->
  group_length m name <= Z.of_nat (String.length line).
Proof.
  intros H. unfold group_length. destruct (group m name) as [v |] eqn:Hv.
  - destruct (group_text r line m name v H Hv) as (b & pre & post & _ & _ & _ & E & _).
    simpl default. subst line. rewrite !length_append. lia.
  - simpl. lia.
Qed.

End MatchFacts.

(** ** Further properties of the linter *)

Module Extra.
Import Regex Patterns Lint Facts RegexFacts LintFacts More MatchFacts.
Local Open Scope list_scope.

Local Arguments startsWith : simpl never.
Local Arguments Ascii.eqb : simpl never.

(** *** The patterns *)

(** X1: on every line that the header pattern matches, the test of line
    220 holds ([rex[0]] is not empty) and the two groups that are read
    without a test, [severity] and [verboseError], are set. *)
Theorem header_match_is_complete (line : string) (rex : result) :
  exec errorParserRegex line = Some rex ->
  (0 < String.length (matched rex))%nat /\
  (exists word, group rex "severity" = Some word /\ word <> EmptyString) /\
  is_Some (group rex "verboseError").
Proof.
  intros H. split; [apply Nat.ltb_lt, (errorParser_matched_nonempty line), H |].
  destruct (errorParser_groups line rex H) as [[word Hw] Hv].
  split; [| exact Hv]. exists word. split; [exact Hw |].
  destruct (group_text _ _ _ _ _ H Hw) as (b & pre & post & ga & gb & Hin & _ & M).
  apply list_elem_of_singleton in Hin as ->.
  apply matches_class_plus in M as (a & t & E & _ & _).
  apply append_inv_tail in E as ->. discriminate.
Qed.

Lemma header_match_is_complete_witness :
  exists rex,
    exec errorParserRegex "%Warning-WIDTH: top.sv:10:3: Width mismatch" = Some rex /\
    (0 < String.length (matched rex))%nat /\
    (exists word, group rex "severity" = Some word /\ word <> EmptyString) /\
    is_Some (group rex "verboseError").
Proof.
  eexists. split; [vm_compute; reflexivity |].
  apply (header_match_is_complete "%Warning-WIDTH: top.sv:10:3: Width mismatch").
  vm_compute. reflexivity.
Defined.

(** The line number that the pattern finds is a run of digits. *)
Lemma lineNum_of_digits (line : string) (rex : result) (v : string) :
  exec errorParserRegex line = Some rex ->
  group rex "lineNumber" = Some v ->
  exists l, -1 <= l /\ lineNum rex = Int l.
Proof.
  intros H Hv. unfold lineNum. rewrite Hv.
  destruct (digits_group errorParserRegex line rex "lineNumber" v eq_refl H Hv)
    as (z & Hz & ->).
  exists (z - 1). simpl. split; [lia | reflexivity].
Qed.

Lemma colNum_is_number (line : string) (rex : result) :
  exec errorParserRegex line = Some rex ->
  exists c, -1 <= c /\ colNum rex = Int c.
Proof.
  intros H. unfold colNum. destruct (group rex "columnNumber") as [v |] eqn:Hv.
  - destruct (digits_group errorParserRegex line rex "columnNumber" v eq_refl H Hv)
      as (z & Hz & ->).
    exists (z - 1). simpl. split; [lia | reflexivity].
  - exists 0. simpl. split; [lia | reflexivity].
Qed.

(** X2: the numbers of a header.  The line number, when the pattern
    finds one, is a run of decimal digits that is not empty, so [lineNum]
    is [NaN] exactly when the header has no line number; with at most
    fifteen digits [lineNum] is the value of the digits minus one.  The
    start column is never [NaN]: it is 0 when the header has no column,
    and the value of the column minus one for a run of at most fifteen
    digits. *)
Theorem header_numbers (line : string) (rex : result) :
  exec errorParserRegex line = Some rex ->
  (isNaN (lineNum rex) = true <-> group rex "lineNumber" = None) /\
  (forall v, group rex "lineNumber" = Some v ->
     v <> EmptyString /\ all_chars is_digit v = true /\
     (short v -> 0 <= decimal v < 10 ^ 15 /\ lineNum rex = Int (decimal v - 1))) /\
  isNaN (colNum rex) = false /\
  (group rex "columnNumber" = None -> colNum rex = Int 0) /\
  (forall v, group rex "columnNumber" = Some v ->
     v <> EmptyString /\ all_chars is_digit v = true /\
     (short v -> 0 <= decimal v < 10 ^ 15 /\ colNum rex = Int (decimal v - 1))).
Proof.
  intros H. split; [| split; [| split; [| split]]].
  - destruct (group rex "lineNumber") as [v |] eqn:Hv.
    + destruct (lineNum_of_digits line rex v H Hv) as (l & _ & ->).
      simpl. split; discriminate.
    + unfold lineNum. rewrite Hv. simpl. tauto.
  - intros v Hv.
    destruct (digits_run errorParserRegex line rex "lineNumber" v eq_refl H Hv)
      as (Hne & Hd & _).
    split; [exact Hne |]. split; [exact Hd |]. intros Hs.
    destruct (decimal_short v Hd Hs) as [Hb E]. split; [exact Hb |].
    unfold lineNum. rewrite Hv, E. reflexivity.
  - destruct (colNum_is_number line rex H) as (c & _ & ->). reflexivity.
  - intros Hc. unfold colNum. rewrite Hc. reflexivity.
  - intros v Hv.
    destruct (digits_run errorParserRegex line rex "columnNumber" v eq_refl H Hv)
      as (Hne & Hd & _).
    split; [exact Hne |]. split; [exact Hd |]. intros Hs.
    destruct (decimal_short v Hd Hs) as [Hb E]. split; [exact Hb |].
    unfold colNum. rewrite Hv, E. reflexivity.
Qed.

Lemma header_numbers_witness :
  exists rex,
    exec errorParserRegex "%Error: foo.sv:12: msg" = Some rex /\
    group rex "lineNumber" = Some "12" /\
    lineNum rex = Int (decimal "12" - 1) /\ colNum rex = Int 0.
Proof.
  eexists. split; [vm_compute; reflexivity |].
  split; [vm_compute; reflexivity |].
  destruct (header_numbers "%Error: foo.sv:12: msg" _ eq_refl)
    as (_ & Hl & _ & Hc & _).
  split.
  - apply (Hl "12"); [vm_compute; reflexivity | unfold short; simpl; lia].
  - apply Hc. vm_compute. reflexivity.
Defined.

(** The two numbers that come with the file path of a secondary
    message. *)
Lemma bottom_digits (l : string) (m : result) :
  exec bottomMessageRegex l = Some m ->
  is_Some (group m "filePath") ->
  exists vl vc,
    group m "lineNumber" = Some vl /\ group m "columnNumber" = Some vc /\
    (vl <> EmptyString /\ all_chars is_digit vl = true /\ piece vl l) /\
    (vc <> EmptyString /\ all_chars is_digit vc = true /\ piece vc l).
Proof.
  intros H Hsome.
  destruct (group_shape bottomMessageRegex l m eq_refl H) as (sh & Hin & Hd).
  assert (HF : Forall (fun sh : list string =>
              "filePath" ∈ sh -> "lineNumber" ∈ sh /\ "columnNumber" ∈ sh)
            (shapes bottomMessageRegex))
    by (refine (bool_decide_unpack _ _); vm_compute; reflexivity).
  rewrite Forall_forall in HF. apply Hd in Hsome.
  destruct (HF sh Hin Hsome) as [Hl Hc].
  apply Hd in Hl as [vl Hvl]. apply Hd in Hc as [vc Hvc].
  exists vl, vc. split; [exact Hvl |]. split; [exact Hvc |]. split.
  - apply (digits_run bottomMessageRegex l m "lineNumber" vl eq_refl H Hvl).
  - apply (digits_run bottomMessageRegex l m "columnNumber" vc eq_refl H Hvc).
Qed.

(** X3: a secondary message never has a partial location.  When the
    pattern finds a file path on the line it has found a line number and
    a column number with it, each a run of decimal digits that is not
    empty; when neither has more than fifteen digits, the location of the
    message is the file at the line number minus one and the column
    number minus one, with an open end. *)
Theorem bottom_location_is_complete (h : Header) (l : string) (m : result)
    (file : string) :
  exec bottomMessageRegex l = Some m ->
  truthy (group m "filePath") = Some file ->
  exists vl vc,
    group m "lineNumber" = Some vl /\ group m "columnNumber" = Some vc /\
    vl <> EmptyString /\ vc <> EmptyString /\
    all_chars is_digit vl = true /\ all_chars is_digit vc = true /\
    (short vl -> short vc ->
     0 <= decimal vl < 10 ^ 15 /\ 0 <= decimal vc < 10 ^ 15 /\
     currentMessageLocation h m =
     mkLocation (Uri_file file)
       (Range4 (Int (decimal vl - 1)) (Int (decimal vc - 1))
               (Int (decimal vl - 1)) MAX_VALUE)).
Proof.
  intros H Hf.
  assert (Hsome : is_Some (group m "filePath")).
  { destruct (group m "filePath") as [[| a p] |]; [discriminate | eauto | discriminate]. }
  destruct (bottom_digits l m H Hsome)
    as (vl & vc & Hvl & Hvc & (Hnl & Hdl & _) & (Hnc & Hdc & _)).
  exists vl, vc. repeat (split; [assumption |]). intros Hsl Hsc.
  destruct (decimal_short vl Hdl Hsl) as [Hbl El].
  destruct (decimal_short vc Hdc Hsc) as [Hbc Ec].
  split; [exact Hbl |]. split; [exact Hbc |].
  unfold currentMessageLocation. rewrite Hf, Hvl, Hvc, El, Ec. reflexivity.
Qed.

Lemma bottom_location_is_complete_witness :
  exists m,
    exec bottomMessageRegex
      "                 t.v:3:5: ... Location of original declaration" = Some m /\
    currentMessageLocation (mkHeader "top.v" (Int 0) (Int 0) MAX_VALUE) m =
    mkLocation (Uri_file "t.v") (Range4 (Int 2) (Int 4) (Int 2) MAX_VALUE).
Proof.
  eexists. split; [vm_compute; reflexivity |].
  destruct (bottom_location_is_complete
              (mkHeader "top.v" (Int 0) (Int 0) MAX_VALUE)
              "                 t.v:3:5: ... Location of original declaration"
              _ "t.v" eq_refl eq_refl)
    as (vl & vc & Hvl & Hvc & _ & _ & _ & _ & Hloc).
  vm_compute in Hvl, Hvc. injection Hvl as <-. injection Hvc as <-.
  apply Hloc; unfold short; simpl; lia.
Defined.

(** The text of a highlight. *)
Lemma highlight_text (l : string) (m : result) :
  exec highlightRegex l = Some m ->
  exists tildes,
    group m "highlight" = Some (String "^" tildes) /\
    all_chars (fun a => Ascii.eqb a "~") tildes = true.
Proof.
  intros H. destruct (highlight_group l m H) as [v Hv].
  destruct (group_text _ _ _ _ _ H Hv) as (b & pre & post & ga & gb & Hin & _ & M).
  apply list_elem_of_singleton in Hin as ->.
  destruct M as (s1 & g1 & (a & E & Ha & ->) & M).
  apply matches_class_star in M as (t & -> & Ht & _).
  apply Ascii.eqb_eq in Ha as ->.
  rewrite <- append_cons in E. apply append_inv_tail in E as ->.
  exists t. split; [exact Hv | exact Ht].
Qed.

Lemma highlight_length (l : string) (m : result) :
  exec highlightRegex l = Some m ->
  exists n, 0 < n /\ group_length m "highlight" = n.
Proof.
  intros H. destruct (highlight_text l m H) as (t & Hv & _).
  exists (1 + Z.of_nat (String.length t)). split; [lia |].
  unfold group_length. rewrite Hv. simpl String.length. lia.
Qed.

(** X4: a highlight is one caret followed by tildes only, so its length,
    which sizes the range, is one more than the number of tildes and never
    zero. *)
Theorem highlight_is_caret_and_tildes (l : string) (m : result) :
  exec highlightRegex l = Some m ->
  exists tildes,
    group m "highlight" = Some (String "^" tildes) /\
    all_chars (fun a => Ascii.eqb a "~") tildes = true /\
    group_length m "highlight" = 1 + Z.of_nat (String.length tildes).
Proof.
  intros H. destruct (highlight_text l m H) as (t & Hv & Ht).
  exists t. split; [exact Hv |]. split; [exact Ht |].
  unfold group_length. rewrite Hv. simpl String.length. lia.
Qed.

Lemma highlight_is_caret_and_tildes_witness :
  exists m,
    exec highlightRegex "      |     ^~~~~" = Some m /\
    exists tildes,
      group m "highlight" = Some (String "^" tildes) /\
      all_chars (fun a => Ascii.eqb a "~") tildes = true /\
      group_length m "highlight" = 1 + Z.of_nat (String.length tildes).
Proof.
  eexists. split; [vm_compute; reflexivity |].
  apply (highlight_is_caret_and_tildes "      |     ^~~~~").
  vm_compute. reflexivity.
Defined.

(** *** The split into lines *)

Lemma splitLines_LF (cur s : string) :
  splitLines cur (String "010" s) = cur :: splitLines EmptyString s.
Proof. reflexivity. Qed.

Lemma splitLines_CRLF (cur s : string) :
  splitLines cur (String "013" (String "010" s)) = cur :: splitLines EmptyString s.
Proof. reflexivity. Qed.

Lemma splitLines_CR_other (cur : string) (b : ascii) (s : string) :
  b <> "010"%char ->
  splitLines cur (String "013" (String b s)) =
  splitLines (cur ++ String "013" EmptyString) (String b s).
Proof.
  intros Hb.
  destruct b as [[] [] [] [] [] [] [] []]; try reflexivity; congruence.
Qed.

Lemma splitLines_CR_end (cur : string) :
  splitLines cur (String "013" EmptyString) = [(cur ++ String "013" EmptyString)%string].
Proof. reflexivity. Qed.

Lemma splitLines_other (cur : string) (a : ascii) (s : string) :
  a <> "010"%char -> a <> "013"%char ->
  splitLines cur (String a s) = splitLines (cur ++ String a EmptyString) s.
Proof.
  intros H1 H2.
  destruct a as [[] [] [] [] [] [] [] []]; try reflexivity; congruence.
Qed.

(** The three ways a text can start, as [splitLines] reads it. *)
Lemma splitLines_cases (cur : string) (a : ascii) (s : string) :
  (a = "010"%char /\ splitLines cur (String a s) = cur :: splitLines EmptyString s) \/
  (a = "013"%char /\ exists s', s = String "010" s' /\
     splitLines cur (String a s) = cur :: splitLines EmptyString s') \/
  (a <> "010"%char /\ crlf_free (String a s) = crlf_free s /\
   splitLines cur (String a s) = splitLines (cur ++ String a EmptyString) s).
Proof.
  destruct (Ascii.eqb_spec a "010") as [-> | H1]; [left; auto |].
  destruct (Ascii.eqb_spec a "013") as [-> | H2].
  - destruct s as [| b s].
    + right. right. auto.
    + destruct (Ascii.eqb_spec b "010") as [-> | Hb].
      * right. left. eauto.
      * right. right. split; [exact H1 |]. split.
        -- destruct b as [[] [] [] [] [] [] [] []]; try reflexivity; congruence.
        -- apply splitLines_CR_other, Hb.
  - right. right. split; [exact H1 |]. split.
    + destruct a as [[] [] [] [] [] [] [] []]; try reflexivity; congruence.
    + apply splitLines_other; assumption.
Qed.

Lemma count_char_append (a : ascii) (s t : string) :
  count_char a (s ++ t) = (count_char a s + count_char a t)%nat.
Proof.
  induction s as [| b s IH]; [reflexivity |].
  rewrite append_cons. simpl. rewrite IH. lia.
Qed.

(** X5: the text is split into one more line than it has LF characters,
    so into at least one line, and no line holds an LF. *)
Theorem split_lines_counts (stderr : string) :
  List.length (split_lines stderr) = S (count_char "010" stderr) /\
  Forall (fun l => count_char "010" l = O) (split_lines stderr).
Proof.
  assert (H : forall n s cur,
             (String.length s <= n)%nat ->
             count_char "010" cur = O ->
             List.length (splitLines cur s) = S (count_char "010" s) /\
             Forall (fun l => count_char "010" l = O) (splitLines cur s)).
  { induction n as [| n IH]; intros s cur Hn Hcur.
    - destruct s; [| simpl in Hn; lia]. simpl. auto.
    - destruct s as [| a s]; [simpl; auto |]. simpl in Hn.
      destruct (splitLines_cases cur a s)
        as [[-> ->] | [[-> (s' & -> & ->)] | (Ha & _ & ->)]].
      + destruct (IH s EmptyString ltac:(lia) eq_refl) as [Hl Hf].
        simpl. rewrite Hl. auto.
      + simpl in Hn. destruct (IH s' EmptyString ltac:(lia) eq_refl) as [Hl Hf].
        simpl. rewrite Hl. auto.
      + assert (Hc : count_char "010" (cur ++ String a EmptyString) = O).
        { rewrite count_char_append, Hcur. simpl.
          destruct (Ascii.eqb_spec "010" a); [congruence | reflexivity]. }
        destruct (IH s _ ltac:(lia) Hc) as [Hl Hf].
        split; [| exact Hf]. rewrite Hl. simpl.
        destruct (Ascii.eqb_spec "010" a); [congruence | reflexivity]. }
  apply (H (String.length stderr)); [lia | reflexivity].
Qed.

Lemma splitLines_nonempty (cur s : string) : splitLines cur s <> [].
Proof.
  remember (String.length s) as n eqn:Hn.
  assert (Hle : (String.length s <= n)%nat) by lia. clear Hn.
  revert s cur Hle. induction n as [| n IH]; intros s cur Hle.
  - destruct s; [discriminate | simpl in Hle; lia].
  - destruct s as [| a s]; [discriminate |]. simpl in Hle.
    destruct (splitLines_cases cur a s)
      as [[_ ->] | [[_ (s' & _ & ->)] | (_ & _ & ->)]]; try discriminate.
    apply IH. lia.
Qed.

Lemma joinLines_cons (x : string) (l : list string) :
  l <> [] -> joinLines (x :: l) = (x ++ String "010" (joinLines l))%string.
Proof. destruct l; [congruence | reflexivity]. Qed.

Lemma joinLines_splitLines (n : nat) :
  forall s cur,
    (String.length s <= n)%nat ->
    crlf_free s = true ->
    joinLines (splitLines cur s) = (cur ++ s)%string.
Proof.
  induction n as [| n IH]; intros s cur Hn Hfree.
  - destruct s; [| simpl in Hn; lia]. rewrite append_nil_r. reflexivity.
  - destruct s as [| a s]; [rewrite append_nil_r; reflexivity |]. simpl in Hn.
    destruct (splitLines_cases cur a s)
      as [[-> ->] | [[-> (s' & -> & ->)] | (Ha & Hf & ->)]].
    + rewrite joinLines_cons by apply splitLines_nonempty.
      rewrite (IH s EmptyString) by (auto; lia). reflexivity.
    + discriminate.
    + rewrite (IH s) by (try lia; congruence).
      rewrite append_assoc. reflexivity.
Qed.

(** X6: when no LF of the text has a CR before it, joining the lines with
    LF gives the text back: the split loses nothing but the CR of a CRLF. *)
Theorem split_lines_join (stderr : string) :
  crlf_free stderr = true -> joinLines (split_lines stderr) = stderr.
Proof.
  intros H. unfold split_lines.
  rewrite (joinLines_splitLines (String.length stderr)); auto.
Qed.

Lemma split_lines_join_witness :
  joinLines (split_lines (String "013" (String "a" (String "010" "b")))) =
  String "013" (String "a" (String "010" "b")).
Proof. apply split_lines_join. reflexivity. Defined.

(** *** The backward scan *)

Lemma startsWith_cons (a b : ascii) (p s : string) :
  startsWith (String a p) (String b s) = (Ascii.eqb a b && startsWith p s)%bool.
Proof. reflexivity. Qed.

Lemma markers_exclusive (l : string) :
  startsWith "%Error" l = true -> startsWith "%Warning" l = false.
Proof.
  destruct l as [| a [| b l]]; [reflexivity | |].
  - rewrite !startsWith_cons. intros _. apply andb_false_r.
  - rewrite !startsWith_cons. intros H.
    apply andb_true_iff in H as [_ H]. apply andb_true_iff in H as [H _].
    apply Ascii.eqb_eq in H as <-. rewrite andb_false_r. reflexivity.
Qed.

Lemma lastDiagMessageType_step (stderrLines : list string) (i : nat) :
  lastDiagMessageType stderrLines i =
  let here := default EmptyString (stderrLines !! i) in
  if startsWith "%Error" here then "Error"
  else if startsWith "%Warning" here then "Warning"
  else match i with
       | O => "Error"
       | S below => lastDiagMessageType stderrLines below
       end.
Proof. destruct i; reflexivity. Qed.

(** X7: the backward scan answers [Warning] exactly when some line at or
    before the current one starts with [%Warning] and no line after it, up
    to the current one, starts with [%Error] or [%Warning]; in every other
    case, also when there is no such line at all, it answers [Error]. *)
Theorem lastDiagMessageType_nearest_marker (stderrLines : list string) (i : nat) :
  (lastDiagMessageType stderrLines i = "Warning" \/
   lastDiagMessageType stderrLines i = "Error") /\
  (lastDiagMessageType stderrLines i = "Warning" <->
   exists j l,
     (j <= i)%nat /\ stderrLines !! j = Some l /\
     startsWith "%Warning" l = true /\
     forall k l', (j < k <= i)%nat -> stderrLines !! k = Some l' ->
                  unmarked l' = true).
Proof.
  induction i as [| i [IHr IH]]; rewrite lastDiagMessageType_step; cbv zeta.
  - destruct (stderrLines !! 0%nat) as [l0 |] eqn:E0; simpl default.
    + destruct (startsWith "%Error" l0) eqn:He;
        [| destruct (startsWith "%Warning" l0) eqn:Hw].
      * split; [auto |]. split; [discriminate |].
        intros (j & l & Hj & Hl & Hw & _). assert (j = O) by lia. subst j.
        rewrite E0 in Hl. injection Hl as <-.
        rewrite (markers_exclusive _ He) in Hw. discriminate.
      * split; [auto |]. split; [| reflexivity]. intros _.
        exists O, l0. split; [lia |]. split; [exact E0 |]. split; [exact Hw |].
        intros k l' Hk. lia.
      * split; [auto |]. split; [discriminate |].
        intros (j & l & Hj & Hl & Hw' & _). assert (j = O) by lia. subst j.
        rewrite E0 in Hl. injection Hl as <-. congruence.
    + split; [auto |]. split; [discriminate |].
      intros (j & l & Hj & Hl & _). assert (j = O) by lia. subst j. congruence.
  - assert (Hdown :
              (forall here, stderrLines !! S i = Some here -> unmarked here = true) ->
              (exists j l, (j <= S i)%nat /\ stderrLines !! j = Some l /\
                 startsWith "%Warning" l = true /\
                 forall k l', (j < k <= S i)%nat -> stderrLines !! k = Some l' ->
                              unmarked l' = true) <->
              (exists j l, (j <= i)%nat /\ stderrLines !! j = Some l /\
                 startsWith "%Warning" l = true /\
                 forall k l', (j < k <= i)%nat -> stderrLines !! k = Some l' ->
                              unmarked l' = true)).
    { intros Hhere. split.
      - intros (j & l & Hj & Hl & Hw & Hall).
        destruct (decide (j = S i)) as [-> | Hne].
        + specialize (Hhere l Hl). unfold unmarked in Hhere.
          rewrite Hw, andb_false_r in Hhere. discriminate.
        + exists j, l. split; [lia |]. split; [exact Hl |]. split; [exact Hw |].
          intros k l' Hk. apply Hall. lia.
      - intros (j & l & Hj & Hl & Hw & Hall).
        exists j, l. split; [lia |]. split; [exact Hl |]. split; [exact Hw |].
        intros k l' Hk Hl'. destruct (decide (k = S i)) as [-> | Hne].
        + apply Hhere, Hl'.
        + apply (Hall k); [lia | exact Hl']. }
    destruct (stderrLines !! S i) as [l0 |] eqn:E0; simpl default.
    + destruct (startsWith "%Error" l0) eqn:He;
        [| destruct (startsWith "%Warning" l0) eqn:Hw].
      * split; [auto |]. split; [discriminate |].
        intros (j & l & Hj & Hl & Hw & Hall).
        destruct (decide (j = S i)) as [-> | Hne].
        -- rewrite E0 in Hl. injection Hl as <-.
           rewrite (markers_exclusive _ He) in Hw. discriminate.
        -- specialize (Hall (S i) l0 ltac:(lia) E0). unfold unmarked in Hall.
           rewrite He in Hall. discriminate.
      * split; [auto |]. split; [| reflexivity]. intros _.
        exists (S i), l0. split; [lia |]. split; [exact E0 |]. split; [exact Hw |].
        intros k l' Hk. lia.
      * split; [exact IHr |]. rewrite IH. symmetry. apply Hdown.
        intros here E. injection E as <-. unfold unmarked. rewrite He, Hw. reflexivity.
    + split; [exact IHr |]. rewrite IH. symmetry. apply Hdown.
      discriminate.
Qed.

Lemma lastDiagMessageType_nearest_marker_witness :
  lastDiagMessageType ["%Error: a.sv:1:1: m1"; "%Warning: b.sv:2:2: m2"; "detail"] 2
  = "Warning".
Proof.
  apply (lastDiagMessageType_nearest_marker
           ["%Error: a.sv:1:1: m1"; "%Warning: b.sv:2:2: m2"; "detail"] 2).
  exists 1%nat, "%Warning: b.sv:2:2: m2".
  split; [lia |]. split; [reflexivity |]. split; [reflexivity |].
  intros k l' Hk Hl. assert (k = 2%nat) by lia. subst k.
  injection Hl as <-. reflexivity.
Defined.

(** *** When the pass stops *)





(** *** What a pass puts in the set *)

Lemma lintLine_contribution (isWindows : bool) stderrLines i line st st' file :
  lintLine isWindows stderrLines i line st = Returns st' ->
  diagnosticsOf (filesDiag st') file =
  diagnosticsOf (filesDiag st) file ++ contribution isWindows stderrLines file i line.
Proof.
  intros H. unfold contribution. destruct (startsWith "%" line) eqn:Hp.
  - destruct (exec errorParserRegex line) as [rex |] eqn:Hx.
    + destruct (lintLine_header isWindows stderrLines i line st rex Hp Hx) as [lv E].
      rewrite E in H.
      destruct (truthy (group rex "filePath")) as [path |];
        [| injection H as <-; simpl; rewrite app_nil_r; reflexivity].
      cbv zeta in H. destruct (structured _ _ _ _ _) eqn:Es; [| discriminate].
      injection H as <-.
      cbn [filesDiag].
      rewrite (diagnosticsOf_structured _ _ _ _ _ _ file Es), diagnosticsOf_ensureFile.
      rewrite (errorParser_matched_nonempty line rex Hx). simpl andb.
      unfold fileKey.
      destruct (group rex "lineNumber") as [v |] eqn:Hv.
      * destruct (lineNum_of_digits line rex v Hx Hv) as (l & _ & El).
        rewrite El. simpl.
        destruct (decide _) as [<- | _]; reflexivity.
      * unfold lineNum. rewrite Hv. reflexivity.
    + rewrite lintLine_null_rex in H by assumption. discriminate.
  - destruct (lintLine_plain isWindows stderrLines i line st Hp) as [lv E].
    rewrite E in H. injection H as <-. simpl. rewrite app_nil_r. reflexivity.
Qed.

Lemma forEach_contributions (isWindows : bool) stderrLines todo file :
  forall i st st',
    forEach isWindows stderrLines todo i st = Returns st' ->
    diagnosticsOf (filesDiag st') file =
    diagnosticsOf (filesDiag st) file ++
    concat (imap (fun j => contribution isWindows stderrLines file (i + j)) todo).
Proof.
  induction todo as [| line todo IH]; intros i st st' H; simpl in H.
  - injection H as <-. simpl. rewrite app_nil_r. reflexivity.
  - destruct (lintLine isWindows stderrLines i line st) as [st1 | |] eqn:E;
      [| discriminate ..].
    rewrite (IH (S i) st1 st' H), (lintLine_contribution _ _ _ _ _ _ file E).
    rewrite <- app_assoc. f_equal. simpl. rewrite Nat.add_0_r. f_equal.
    f_equal. apply imap_ext. intros j x _. unfold compose.
    replace (i + S j)%nat with (S (i + j)) by lia. reflexivity.
Qed.

(** X9: the diagnostics of a file, in the set of a pass that runs to its
    end, are exactly one diagnostic for each header line that names the
    file and has a line number, in the order of the lines; no other line
    adds one. *)
Theorem diagnostics_of_a_pass
    (isWindows : bool) (stderr : string) (st : State) (file : string) :
  parse isWindows stderr = Returns st ->
  diagnosticsOf (filesDiag st) file =
  concat (imap (contribution isWindows (split_lines stderr) file) (split_lines stderr)).
Proof.
  intros H. unfold parse in H.
  rewrite (forEach_contributions _ _ _ file _ _ _ H). reflexivity.
Qed.

Lemma diagnostics_of_a_pass_witness :
  exists st d1 d2,
    parse false (joinLines
      ["%Error: a.sv:1:1: m1"; "%Error: a.sv: no line"; "note"; "%Warning: a.sv:7: m2"])
      = Returns st /\
    concat (imap (contribution false
        ["%Error: a.sv:1:1: m1"; "%Error: a.sv: no line"; "note"; "%Warning: a.sv:7: m2"]
        "a.sv")
      ["%Error: a.sv:1:1: m1"; "%Error: a.sv: no line"; "note"; "%Warning: a.sv:7: m2"])
      = [d1; d2] /\
    diagnosticsOf (filesDiag st) "a.sv" = [d1; d2].
Proof.
  eexists. eexists. eexists.
  split; [vm_compute; reflexivity |]. split; [vm_compute; reflexivity |].
  etransitivity.
  - apply (diagnostics_of_a_pass false (joinLines
      ["%Error: a.sv:1:1: m1"; "%Error: a.sv: no line"; "note"; "%Warning: a.sv:7: m2"])).
    vm_compute. reflexivity.
  - vm_compute. reflexivity.
Defined.

(** *** Slashes *)

Lemma replaceBackslashes_step (a : ascii) (s : string) :
  replaceBackslashes (String a s) =
  if Ascii.eqb a "\"
  then String "/" (replaceBackslashes
                     match s with
                     | String b s' => if Ascii.eqb b "\" then s' else s
                     | EmptyString => s
                     end)
  else String a (replaceBackslashes s).
Proof.
  destruct (Ascii.eqb_spec a "\") as [-> | Ha].
  - destruct s as [| b s']; [reflexivity |].
    destruct (Ascii.eqb_spec b "\") as [-> | Hb]; [reflexivity |].
    destruct b as [[] [] [] [] [] [] [] []]; try reflexivity; congruence.
  - destruct a as [[] [] [] [] [] [] [] []]; try reflexivity; congruence.
Qed.

Lemma count_char_cons (a b : ascii) (s : string) :
  count_char a (String b s) =
  ((if Ascii.eqb a b then 1 else 0) + count_char a s)%nat.
Proof. reflexivity. Qed.

Lemma replaceBackslashes_clean (n : nat) :
  forall s, (String.length s <= n)%nat ->
            count_char "\" (replaceBackslashes s) = O /\
            (String.length (replaceBackslashes s) <= String.length s)%nat.
Proof.
  induction n as [| n IH]; intros s Hn.
  - destruct s; [| simpl in Hn; lia]. simpl. auto.
  - destruct s as [| a s]; [simpl; auto |]. simpl in Hn.
    rewrite replaceBackslashes_step.
    destruct (Ascii.eqb_spec a "\") as [-> | Ha].
    + rewrite count_char_cons.
      destruct s as [| b s']; [simpl; auto |].
      destruct (Ascii.eqb b "\").
      * simpl in Hn. destruct (IH s' ltac:(lia)) as [Hc Hl].
        rewrite Hc. simpl. split; [reflexivity | lia].
      * destruct (IH (String b s') ltac:(simpl in *; lia)) as [Hc Hl].
        rewrite Hc. simpl in *. split; [reflexivity | lia].
    + rewrite count_char_cons. destruct (IH s ltac:(lia)) as [Hc Hl].
      rewrite Hc. destruct (Ascii.eqb_spec "\" a); [congruence |].
      simpl. split; [reflexivity | lia].
Qed.

Lemma replaceBackslashes_id (s : string) :
  count_char "\" s = O -> replaceBackslashes s = s.
Proof.
  induction s as [| a s IH]; [reflexivity |].
  rewrite count_char_cons, replaceBackslashes_step. intros H.
  destruct (Ascii.eqb_spec a "\") as [-> | Ha].
  - rewrite Ascii.eqb_refl in H. discriminate.
  - rewrite IH; [reflexivity |].
    destruct (Ascii.eqb "\" a); [discriminate | exact H].
Qed.

(** X10: the slashes of a key.  [replaceBackslashes] leaves no backslash
    and never makes the path longer; a path without a backslash is left
    as it is, so doing it twice is doing it once. *)
Theorem replaceBackslashes_normalises (path : string) :
  count_char "\" (replaceBackslashes path) = O /\
  (String.length (replaceBackslashes path) <= String.length path)%nat /\
  (count_char "\" path = O -> replaceBackslashes path = path) /\
  replaceBackslashes (replaceBackslashes path) = replaceBackslashes path.
Proof.
  destruct (replaceBackslashes_clean (String.length path) path ltac:(lia)) as [Hc Hl].
  repeat split; auto using replaceBackslashes_id.
Qed.

Lemma replaceBackslashes_normalises_witness :
  replaceBackslashes "src/top.sv" = "src/top.sv".
Proof.
  apply (proj1 (proj2 (proj2 (replaceBackslashes_normalises "src/top.sv")))).
  reflexivity.
Defined.

(** X11: the slashes of the path of the document.  [toSlashes] keeps the
    length and leaves no backslash; it gives what [replaceBackslashes]
    gives on every path in which no backslash follows another one. *)
Theorem toSlashes_and_replaceBackslashes (path : string) :
  String.length (toSlashes path) = String.length path /\
  count_char "\" (toSlashes path) = O /\
  (single_backslashes path = true -> replaceBackslashes path = toSlashes path).
Proof.
  split; [| split].
  - induction path as [| a s IH]; simpl; [reflexivity | rewrite IH; reflexivity].
  - induction path as [| a s IH]; [reflexivity |].
    simpl toSlashes. rewrite count_char_cons, IH.
    destruct (Ascii.eqb_spec a "\") as [-> | Ha]; [reflexivity |].
    destruct (Ascii.eqb_spec "\" a); [congruence | reflexivity].
  - induction path as [| a s IH]; [reflexivity |].
    intros H. rewrite replaceBackslashes_step. simpl toSlashes.
    destruct s as [| b s'].
    + destruct (Ascii.eqb a "\"); reflexivity.
    + simpl in H. apply andb_true_iff in H as [Hab Hs].
      pose proof (IH Hs) as E. clear IH Hs.
      destruct (Ascii.eqb a "\"); [| rewrite E; reflexivity].
      simpl in Hab. destruct (Ascii.eqb b "\"); [discriminate |].
      rewrite E. reflexivity.
Qed.

Lemma toSlashes_and_replaceBackslashes_witness :
  replaceBackslashes "C:\work\top.sv" = toSlashes "C:\work\top.sv".
Proof. apply toSlashes_and_replaceBackslashes. reflexivity. Defined.

Lemma replaceBackslashes_append (e : string) :
  count_char "\" e = O ->
  forall n s, (String.length s <= n)%nat ->
              replaceBackslashes (s ++ e) = (replaceBackslashes s ++ e)%string.
Proof.
  intros He. induction n as [| n IH]; intros s Hn.
  - destruct s; [| simpl in Hn; lia]. apply replaceBackslashes_id, He.
  - destruct s as [| a s]; [apply replaceBackslashes_id, He |]. simpl in Hn.
    rewrite append_cons, !replaceBackslashes_step.
    destruct (Ascii.eqb a "\"); [| rewrite IH by lia; reflexivity].
    destruct s as [| b s'].
    + rewrite append_nil_l. destruct e as [| c e']; [reflexivity |].
      rewrite count_char_cons in He.
      destruct (Ascii.eqb_spec c "\") as [-> | Hc];
        [rewrite Ascii.eqb_refl in He; discriminate |].
      rewrite (replaceBackslashes_id (String c e')); [reflexivity |].
      rewrite count_char_cons. exact He.
    + rewrite append_cons. simpl in Hn.
      destruct (Ascii.eqb b "\").
      * rewrite IH by lia. reflexivity.
      * rewrite <- append_cons, IH by (simpl; lia). reflexivity.
Qed.

(** *** The files of the set *)

Lemma structured_keys stderrLines i rex file fd fd' f :
  structured stderrLines i rex file fd = Some fd' ->
  is_Some (fd !! file) ->
  (is_Some (fd' !! f) <-> is_Some (fd !! f)).
Proof.
  intros Es Hfile. apply structured_Some in Es as ->. unfold pushDiag.
  destruct (Nat.ltb 0 (String.length (matched rex)) && negb (isNaN (lineNum rex)))%bool;
    [| tauto].
  destruct (decide (file = f)) as [<- | Hne].
  - rewrite lookup_insert_eq. split; eauto.
  - rewrite lookup_insert_ne by exact Hne. tauto.
Qed.

Lemma ensureFile_keys file (fd : DiagnosticSet) f :
  is_Some (ensureFile file fd !! f) <-> is_Some (fd !! f) \/ file = f.
Proof.
  unfold ensureFile. destruct (fd !! file) eqn:E.
  - split; [auto |]. intros [H | <-]; [exact H | rewrite E; eauto].
  - destruct (decide (file = f)) as [<- | Hne].
    + rewrite lookup_insert_eq. split; eauto.
    + rewrite lookup_insert_ne by exact Hne. split; [auto |].
      intros [H | H]; [exact H | contradiction].
Qed.

Lemma lintLine_keys (isWindows : bool) stderrLines i line st st' f :
  lintLine isWindows stderrLines i line st = Returns st' ->
  (is_Some (filesDiag st' !! f) <->
   is_Some (filesDiag st !! f) \/ names isWindows f line).
Proof.
  intros H. unfold names. destruct (startsWith "%" line) eqn:Hp.
  - destruct (exec errorParserRegex line) as [rex |] eqn:Hx.
    + destruct (lintLine_header isWindows stderrLines i line st rex Hp Hx) as [lv E].
      rewrite E in H.
      destruct (truthy (group rex "filePath")) as [path |] eqn:Hf;
        [cbv zeta in H; destruct (structured _ _ _ _ _) eqn:Es; [| discriminate] |];
        injection H as <-.
      * cbn [filesDiag log].
        rewrite (structured_keys _ _ _ _ _ _ f Es) by apply ensureFile_is_Some.
        rewrite ensureFile_keys. unfold fileKey. split.
        -- intros [H | H]; [auto |]. right. split; [reflexivity |]. eauto.
        -- intros [H | (_ & rex' & path' & Hx' & Hf' & Hk)]; [auto |].
           injection Hx' as <-. rewrite Hf in Hf'. injection Hf' as <-. auto.
      * cbn [filesDiag log]. split; [auto |].
        intros [H | (_ & rex' & path' & Hx' & Hf' & _)]; [exact H |].
        injection Hx' as <-. congruence.
    + rewrite lintLine_null_rex in H by assumption. discriminate.
  - destruct (lintLine_plain isWindows stderrLines i line st Hp) as [lv E].
    rewrite E in H. injection H as <-. cbn [filesDiag log]. split; [auto |].
    intros [H | [H _]]; [exact H | discriminate].
Qed.

Lemma forEach_keys (isWindows : bool) stderrLines todo f :
  forall i st st',
    forEach isWindows stderrLines todo i st = Returns st' ->
    (is_Some (filesDiag st' !! f) <->
     is_Some (filesDiag st !! f) \/ Exists (names isWindows f) todo).
Proof.
  induction todo as [| line todo IH]; intros i st st' H; simpl in H.
  - injection H as <-. rewrite Exists_nil. tauto.
  - destruct (lintLine isWindows stderrLines i line st) as [st1 | |] eqn:E;
      [| discriminate ..].
    rewrite (IH _ _ _ H), (lintLine_keys _ _ _ _ _ _ f E), Exists_cons. tauto.
Qed.

(** The file path that the patterns find ends with one of the suffixes,
    after a stem that is not empty. *)
Lemma filePath_suffix (r : regex) (line : string) (m : result) (path : string) :
  bodies "filePath" r = [Seq pathChars fileExtension] ->
  exec r line = Some m ->
  group m "filePath" = Some path ->
  exists stem ext,
    path = (stem ++ ext)%string /\ stem <> EmptyString /\ ext ∈ extensions.
Proof.
  intros Hb H Hp.
  destruct (group_text r line m "filePath" path H Hp)
    as (b & pre & post & ga & gb & Hin & _ & M).
  rewrite Hb in Hin. apply list_elem_of_singleton in Hin as ->.
  destruct M as (s1 & g1 & M1 & g2 & M2 & _).
  destruct M1 as (s0 & g0 & [(a & E0 & _) | (a & E0 & _)] & M1);
    apply matches_prefix in M1 as [t1 ->];
    (assert (Hext : exists ext, ext ∈ extensions /\ (t1 ++ s1 = t1 ++ ext ++ post)%string);
     [| destruct Hext as (ext & Hin & E1);
        exists (String a t1), ext; split; [| split; [discriminate | exact Hin]];
        apply (append_inv_tail _ _ post);
        rewrite E0, append_assoc, append_cons, E1; reflexivity]);
    unfold extensions;
    repeat (destruct M2 as [M2 | M2];
            [apply matches_Str in M2 as [-> _]; eexists; split;
             [| reflexivity]; set_solver |]);
    apply matches_Str in M2 as [-> _]; eexists; (split; [| reflexivity]); set_solver.
Qed.

(** X12: the files of the set of a pass that runs to its end are exactly
    the keys of the file paths that the header pattern finds on the lines
    that start with [%], whether the header has a line number or not; and
    every one of them ends with one of the six suffixes. *)
Theorem files_of_a_pass
    (isWindows : bool) (stderr : string) (st : State) (file : string) :
  parse isWindows stderr = Returns st ->
  (is_Some (filesDiag st !! file) <->
   Exists (names isWindows file) (split_lines stderr)) /\
  (is_Some (filesDiag st !! file) ->
   exists stem ext, file = (stem ++ ext)%string /\ ext ∈ extensions).
Proof.
  intros H. unfold parse in H.
  assert (Hk : is_Some (filesDiag st !! file) <->
               Exists (names isWindows file) (split_lines stderr)).
  { rewrite (forEach_keys _ _ _ file _ _ _ H). cbn [filesDiag].
    rewrite lookup_empty. split; [intros [[? ?] | ?]; [discriminate | auto] | auto]. }
  split; [exact Hk |]. intros Hs. apply Hk in Hs.
  apply Exists_exists in Hs as (line & _ & _ & rex & path & Hx & Hf & Hkey).
  assert (Hp : group rex "filePath" = Some path).
  { destruct (group rex "filePath") as [[| a p] |]; try discriminate.
    injection Hf as <-. reflexivity. }
  destruct (filePath_suffix errorParserRegex line rex path eq_refl Hx Hp)
    as (stem & ext & -> & _ & Hin).
  unfold fileKey in Hkey. destruct isWindows.
  - exists (replaceBackslashes stem), ext. split; [| exact Hin].
    rewrite <- Hkey. apply (replaceBackslashes_append ext) with (n := String.length stem);
      [| lia].
    unfold extensions in Hin.
    repeat (apply elem_of_cons in Hin as [-> | Hin]; [reflexivity |]).
    apply elem_of_nil in Hin. contradiction.
  - exists stem, ext. auto.
Qed.

Lemma files_of_a_pass_witness :
  exists st,
    parse true (joinLines ["%Error: C:\w\a.sv: no line"; "%Error: b.v:3: msg"])
      = Returns st /\
    is_Some (filesDiag st !! "C:/w/a.sv") /\
    (is_Some (filesDiag st !! "C:/w/a.sv") ->
     exists stem ext, "C:/w/a.sv" = (stem ++ ext)%string /\ ext ∈ extensions).
Proof.
  eexists. split; [vm_compute; reflexivity |].
  split; [vm_compute; eauto |].
  apply (files_of_a_pass true
    (joinLines ["%Error: C:\w\a.sv: no line"; "%Error: b.v:3: msg"])).
  vm_compute. reflexivity.
Defined.

(** *** The scans of a block *)

Lemma block_idem (rest : list string) : block (block rest) = block rest.
Proof.
  induction rest as [| l rest IH]; simpl; [reflexivity |].
  destruct (startsWith "%" l) eqn:Hp; simpl; [reflexivity |].
  rewrite Hp, IH. reflexivity.
Qed.

(** X13: the scan for the highlight and the loop of the secondary messages
    read the block of the header and nothing else: the lines from the next
    line that starts with [%] on do not change their results. *)
Theorem scans_stay_in_the_block
    (h : Header) (c : num) (rest : list string)
    (bottomMessages : list DiagnosticRelatedInformation) :
  endColNum c rest = endColNum c (block rest) /\
  bottomLoop h rest bottomMessages = bottomLoop h (block rest) bottomMessages.
Proof.
  split.
  - induction rest as [| l rest IH]; simpl; [reflexivity |].
    destruct (startsWith "%" l) eqn:Hp; simpl; [reflexivity |].
    rewrite Hp, IH. reflexivity.
  - revert bottomMessages.
    induction rest as [| l rest IH]; intros bms; simpl; [reflexivity |].
    destruct (startsWith "%" l) eqn:Hp; simpl; [reflexivity |].
    rewrite Hp, IH. reflexivity.
Qed.



(** *** Ranges *)

Lemma highlight_length_modest (l : string) (m : result) :
  exec highlightRegex l = Some m ->
  modest l = true ->
  0 < group_length m "highlight" < 10 ^ 15.
Proof.
  intros H Hm. destruct (highlight_length l m H) as (n & Hn & E).
  pose proof (group_length_le highlightRegex l m "highlight" H) as Hle.
  apply andb_true_iff in Hm as [_ Hm]. apply Z.ltb_lt in Hm. lia.
Qed.

Lemma endColNum_forward (c : Z) (rest : list string) :
  Forall (fun l => modest l = true) (block rest) ->
  endColNum (Int c) rest = MAX_VALUE \/
  exists n, 0 < n < 10 ^ 15 /\ endColNum (Int c) rest = Int (c + n).
Proof.
  induction rest as [| l rest IH]; simpl; [auto |].
  destruct (startsWith "%" l); [auto |].
  intros Hall. inversion Hall as [| ? ? Hl Hrest]; subst.
  destruct (exec highlightRegex l) as [m |] eqn:Hm; [| exact (IH Hrest)].
  right. exists (group_length m "highlight").
  split; [apply (highlight_length_modest l m Hm Hl) | reflexivity].
Qed.

Lemma colNum_bounds (line : string) (rex : result) :
  exec errorParserRegex line = Some rex ->
  modest line = true ->
  exists c, -1 <= c < 10 ^ 15 /\ colNum rex = Int c.
Proof.
  intros H Hm. unfold colNum. destruct (group rex "columnNumber") as [v |] eqn:Hv.
  - destruct (digits_short errorParserRegex line rex "columnNumber" v eq_refl H Hv Hm)
      as [Hd Hs].
    destruct (decimal_short v Hd Hs) as [Hb ->].
    exists (decimal v - 1). simpl. split; [lia | reflexivity].
  - exists 0. simpl. split; [lia | reflexivity].
Qed.

Lemma updateLast_Forall (P : DiagnosticRelatedInformation -> Prop) len ms :
  (forall m, P m -> P (withNewRange len m)) ->
  Forall P ms -> Forall P (updateLast len ms).
Proof.
  intros HP. induction ms as [| m init _] using rev_ind; [auto |].
  rewrite updateLast_snoc, !Forall_app, !Forall_singleton.
  intros [Hi Hm]. auto.
Qed.

Lemma bottomStep_forward (h : Header) (l : string) bms :
  modest l = true ->
  forward (headerRange h) ->
  Forall (fun m => forward (range (location m))) bms ->
  Forall (fun m => forward (range (location m))) (bottomStep h l bms).
Proof.
  intros Hl Hh Hb. unfold bottomStep.
  assert (Hpush : Forall (fun m => forward (range (location m)))
            match exec bottomMessageRegex l with
            | Some matched => bms ++ [bottomMessage h matched]
            | None => bms
            end).
  { destruct (exec bottomMessageRegex l) as [matched |] eqn:Hm; [| exact Hb].
    rewrite Forall_app, Forall_singleton. split; [exact Hb |].
    unfold bottomMessage. cbn [location].
    destruct (truthy (group matched "filePath")) as [file |] eqn:Hf.
    - assert (Hsome : is_Some (group matched "filePath")).
      { destruct (group matched "filePath") as [[| a p] |];
          [discriminate | eauto | discriminate]. }
      destruct (bottom_digits l matched Hm Hsome)
        as (vl & vc & Hvl & Hvc & (_ & Hdl & _) & (_ & Hdc & Hpc)).
      apply andb_true_iff in Hl as [Hruns _].
      pose proof (short_runs_piece 15 vc l Hruns Hpc Hdc) as Hsc.
      destruct (decimal_short vc Hdc Hsc) as [Hbc Ec].
      unfold currentMessageLocation. rewrite Hf, Hvl, Hvc, Ec.
      rewrite (digits_value_decimal vl Hdl 0 : Number (Some vl) = _).
      split; [reflexivity |]. exists (decimal vc - 1). cbn.
      split; [reflexivity |]. split; [lia | auto].
    - unfold currentMessageLocation. rewrite Hf. exact Hh. }
  destruct (Nat.ltb 0 (List.length bms) && test highlightRegex l)%bool;
    [| exact Hpush].
  destruct (exec highlightRegex l) as [m |] eqn:Hm; [| exact Hpush].
  apply updateLast_Forall; [| exact Hpush].
  intros x (_ & c & Hc & Hcb & _).
  split; [reflexivity |]. exists c. cbn. split; [exact Hc |]. split; [exact Hcb |].
  right. exists (group_length m "highlight"). rewrite Hc.
  split; [apply (highlight_length_modest l m Hm Hl) | reflexivity].
Qed.

Lemma bottomLoop_forward (h : Header) (rest : list string) :
  forward (headerRange h) ->
  Forall (fun l => modest l = true) (block rest) ->
  forall bms,
    Forall (fun m => forward (range (location m))) bms ->
    Forall (fun m => forward (range (location m))) (bottomLoop h rest bms).
Proof.
  intros Hh. induction rest as [| l rest IH]; intros Hall bms Hb; simpl in *;
    [exact Hb |].
  destruct (startsWith "%" l); [exact Hb |].
  inversion Hall as [| ? ? Hl Hrest]; subst.
  apply IH; [exact Hrest |]. apply bottomStep_forward; assumption.
Qed.

(** X15: the ranges of a diagnostic.  When the header and the lines of
    its block have fewer than 10^15 characters and no number of more than
    fifteen digits, the range of the diagnostic built for the header, and
    the range of every related message in it, is on one line, starts at a
    column from -1 to 10^15, and is open or ends fewer than 10^15 columns
    after its start.  Start and end are then integers below 2^53, which a
    double holds exactly: no range is empty or runs backwards. *)
Theorem ranges_run_forward
    (stderrLines : list string) (i : nat) (line : string) (rex : result)
    (file : string) :
  exec errorParserRegex line = Some rex ->
  modest line = true ->
  Forall (fun l => modest l = true) (block (drop (S i) stderrLines)) ->
  let d := diagnosticOf stderrLines i rex file in
  forward (drange d) /\
  Forall (fun m => forward (range (location m))) (relatedInformation d).
Proof.
  intros H Hm Hall d.
  assert (Hh : forward (headerRange (headerOf stderrLines i rex file))).
  { unfold headerOf, headerRange. cbn. split; [reflexivity |].
    destruct (colNum_bounds line rex H Hm) as (c & Hc & ->).
    exists c. split; [reflexivity |]. split; [exact Hc |].
    apply endColNum_forward, Hall. }
  split; [exact Hh |].
  unfold d, diagnosticOf, mainMessageDiag. cbn [relatedInformation].
  rewrite Forall_app. split.
  - apply bottomLoop_forward; [exact Hh | exact Hall | constructor].
  - rewrite Forall_map. apply Forall_true. intros x. exact Hh.
Qed.

Lemma ranges_run_forward_witness :
  exists rex,
    exec errorParserRegex "%Warning-WIDTH: t.v:5:10: Operator" = Some rex /\
    let d := diagnosticOf
      ["%Warning-WIDTH: t.v:5:10: Operator"; "      |          ^";
       "                 t.v:3:5: ... Location of original declaration";
       "      |       ^~~~"] 0 rex "t.v" in
    forward (drange d) /\
    Forall (fun m => forward (range (location m))) (relatedInformation d).
Proof.
  eexists. split; [vm_compute; reflexivity |].
  apply (ranges_run_forward _ 0 "%Warning-WIDTH: t.v:5:10: Operator").
  - vm_compute. reflexivity.
  - vm_compute. reflexivity.
  - refine (bool_decide_unpack _ _). vm_compute. reflexivity.
Defined.

(** *** Lines without a header, and the platform *)

Lemma startsWith_percent (p l : string) :
  startsWith (String "%" p) l = true -> startsWith "%" l = true.
Proof.
  destruct l as [| a l]; [discriminate |]. rewrite !startsWith_cons.
  intros H. apply andb_true_iff in H as [-> _]. reflexivity.
Qed.

Lemma lastDiagMessageType_no_header (stderrLines : list string) (i : nat) :
  Forall (fun l => startsWith "%" l = false) stderrLines ->
  lastDiagMessageType stderrLines i = "Error".
Proof.
  intros Hall.
  assert (Hhere : forall j,
             startsWith "%Error" (default EmptyString (stderrLines !! j)) = false /\
             startsWith "%Warning" (default EmptyString (stderrLines !! j)) = false).
  { intros j. destruct (stderrLines !! j) as [l |] eqn:E; [| split; reflexivity].
    apply list_elem_of_lookup_2 in E. rewrite Forall_forall in Hall.
    apply Hall in E. simpl default.
    split.
    - destruct (startsWith "%Error" l) eqn:Hs; [| reflexivity].
      apply startsWith_percent in Hs. congruence.
    - destruct (startsWith "%Warning" l) eqn:Hs; [| reflexivity].
      apply startsWith_percent in Hs. congruence. }
  induction i as [| i IH]; rewrite lastDiagMessageType_step; cbv zeta.
  - destruct (Hhere 0%nat) as [-> ->]. reflexivity.
  - destruct (Hhere (S i)) as [-> ->]. exact IH.
Qed.

(** X16: a text in which no line starts with [%] gives the empty set; the
    pass runs to its end and hands every line to the sink as an error. *)
Theorem text_without_header
    (isWindows : bool) (dc : DiagnosticSet) (stderr : string) :
  Forall (fun l => startsWith "%" l = false) (split_lines stderr) ->
  callback isWindows dc stderr =
  mkPass (map (pair LogError) (split_lines stderr)) ∅ true.
Proof.
  intros Hall. unfold callback, parse.
  assert (H : forall todo i st,
             Forall (fun l => startsWith "%" l = false) todo ->
             forEach isWindows (split_lines stderr) todo i st =
             Returns (mkState (logged st ++ map (pair LogError) todo) (filesDiag st))).
  { induction todo as [| l todo IH]; intros i st Ht; simpl.
    - rewrite app_nil_r. destruct st; reflexivity.
    - inversion Ht as [| ? ? Hl Ht']; subst.
      unfold lintLine. rewrite Hl, (lastDiagMessageType_no_header _ i Hall).
      simpl negb. cbv iota. simpl String.eqb. cbv iota.
      rewrite (IH (S i) _ Ht'). unfold log. cbn [logged filesDiag].
      rewrite <- app_assoc. reflexivity. }
  rewrite (H _ 0%nat _ Hall). cbn [logged filesDiag]. rewrite publish_eq. reflexivity.
Qed.

Lemma text_without_header_witness :
  callback false ∅ (joinLines ["verilator: command not found"; EmptyString]) =
  mkPass (map (pair LogError)
            (split_lines (joinLines ["verilator: command not found"; EmptyString])))
         ∅ true.
Proof. apply text_without_header. vm_compute. repeat constructor. Defined.

Lemma piece_count (a : ascii) (v line : string) :
  piece v line -> (count_char a v <= count_char a line)%nat.
Proof.
  intros (pre & post & ->). rewrite !count_char_append. lia.
Qed.

Lemma splitLines_clean (a : ascii) (n : nat) :
  forall s cur,
    (String.length s <= n)%nat ->
    count_char a cur = O -> count_char a s = O ->
    Forall (fun l => count_char a l = O) (splitLines cur s).
Proof.
  induction n as [| n IH]; intros s cur Hn Hcur Hs.
  - destruct s; [| simpl in Hn; lia]. simpl. auto.
  - destruct s as [| b s]; [simpl; auto |]. simpl in Hn.
    rewrite count_char_cons in Hs.
    assert (Hb : Ascii.eqb a b = false) by (destruct (Ascii.eqb a b); [discriminate | reflexivity]).
    rewrite Hb in Hs. simpl in Hs.
    destruct (splitLines_cases cur b s)
      as [[-> ->] | [[-> (s' & -> & ->)] | (_ & _ & ->)]].
    + constructor; [exact Hcur |]. apply IH; [lia | reflexivity | exact Hs].
    + constructor; [exact Hcur |]. simpl in Hn. rewrite count_char_cons in Hs.
      apply IH; [lia | reflexivity | lia].
    + apply IH; [lia | | exact Hs].
      rewrite count_char_append, Hcur, count_char_cons, Hb. reflexivity.
Qed.

Lemma lintLine_platform stderrLines i line st :
  count_char "\" line = O ->
  lintLine true stderrLines i line st = lintLine false stderrLines i line st.
Proof.
  intros Hc. unfold lintLine.
  destruct (startsWith "%" line); [| reflexivity]. simpl negb. cbv iota.
  destruct (exec errorParserRegex line) as [rex |] eqn:Hx; [| reflexivity].
  destruct (truthy (group rex "filePath")) as [path |] eqn:Hf; [| reflexivity].
  assert (Hp : group rex "filePath" = Some path).
  { destruct (group rex "filePath") as [[| a p] |]; try discriminate.
    injection Hf as <-. reflexivity. }
  destruct (group_text _ _ _ _ _ Hx Hp) as (b & pre & post & _ & _ & _ & E & _).
  assert (Hclean : count_char "\" path = O).
  { pose proof (piece_count "\" path line (ex_intro _ pre (ex_intro _ post E))). lia. }
  rewrite (replaceBackslashes_id path Hclean). reflexivity.
Qed.

(** X17: on a text without a backslash the pass is the same on Windows as
    elsewhere: the same lines reach the sink and the same set is
    published. *)
Theorem platform_matters_only_for_backslashes
    (dc : DiagnosticSet) (stderr : string) :
  count_char "\" stderr = O ->
  callback true dc stderr = callback false dc stderr.
Proof.
  intros Hc. unfold callback, parse.
  assert (Hl : Forall (fun l => count_char "\" l = O) (split_lines stderr))
    by (apply (splitLines_clean _ (String.length stderr)); auto).
  assert (H : forall todo i st,
             Forall (fun l => count_char "\" l = O) todo ->
             forEach true (split_lines stderr) todo i st =
             forEach false (split_lines stderr) todo i st).
  { induction todo as [| l todo IH]; intros i st Ht; simpl; [reflexivity |].
    inversion Ht as [| ? ? Hl0 Ht']; subst.
    rewrite (lintLine_platform _ i l st Hl0).
    destruct (lintLine false (split_lines stderr) i l st); [| reflexivity ..].
    apply IH, Ht'. }
  rewrite (H _ 0%nat _ Hl). reflexivity.
Qed.

Lemma platform_matters_only_for_backslashes_witness :
  callback true ∅ (joinLines ["%Error: /w/a.sv:3:1: msg"; "   3 | x"; "     | ^"]) =
  callback false ∅ (joinLines ["%Error: /w/a.sv:3:1: msg"; "   3 | x"; "     | ^"]).
Proof. apply platform_matters_only_for_backslashes. reflexivity. Defined.

(** X18: the texts of a diagnostic are taken from its header line as they
    stand: the message is a piece of the line, and so is the code when
    there is one. *)
Theorem diagnostic_texts_are_pieces
    (stderrLines : list string) (i : nat) (line : string) (rex : result)
    (file : string) :
  exec errorParserRegex line = Some rex ->
  let d := diagnosticOf stderrLines i rex file in
  (exists text, message d = Some text /\ piece text line) /\
  (forall c, code d = Some c -> piece c line).
Proof.
  intros H d. unfold d, diagnosticOf, mainMessageDiag. cbn [message code].
  split.
  - destruct (errorParser_groups line rex H) as [_ [text Ht]].
    exists text. split; [exact Ht |].
    destruct (group_text _ _ _ _ _ H Ht) as (b & pre & post & _ & _ & _ & E & _).
    exists pre, post. exact E.
  - intros c Hc.
    destruct (group_text _ _ _ _ _ H Hc) as (b & pre & post & _ & _ & _ & E & _).
    exists pre, post. exact E.
Qed.

Lemma diagnostic_texts_are_pieces_witness :
  exists rex,
    exec errorParserRegex "%Warning-WIDTH: top.sv:10:3: Width mismatch" = Some rex /\
    let d := diagnosticOf ["%Warning-WIDTH: top.sv:10:3: Width mismatch"] 0 rex "top.sv" in
    (exists text, message d = Some text /\
       piece text "%Warning-WIDTH: top.sv:10:3: Width mismatch") /\
    (forall c, code d = Some c ->
       piece c "%Warning-WIDTH: top.sv:10:3: Width mismatch").
Proof.
  eexists. split; [vm_compute; reflexivity |].
  apply (diagnostic_texts_are_pieces _ 0 "%Warning-WIDTH: top.sv:10:3: Width mismatch").
  vm_compute. reflexivity.
Defined.

(** *** [splitTerms] *)

Lemma splitOn_counts (sep : ascii) (s : string) :
  forall cur,
    count_char sep cur = O ->
    List.length (splitOn sep cur s) = S (count_char sep s) /\
    Forall (fun t => count_char sep t = O) (splitOn sep cur s).
Proof.
  induction s as [| a s IH]; intros cur Hcur; simpl splitOn.
  - simpl. auto.
  - rewrite count_char_cons, (Ascii.eqb_sym sep a).
    destruct (Ascii.eqb a sep) eqn:Ha.
    + destruct (IH EmptyString eq_refl) as [Hl Hf]. simpl. rewrite Hl. auto.
    + apply IH. rewrite count_char_append, Hcur, count_char_cons.
      rewrite (Ascii.eqb_sym sep a), Ha. reflexivity.
Qed.

Lemma splitOn_join (sep : ascii) (s : string) :
  forall cur,
    String.concat (String sep EmptyString) (splitOn sep cur s) = (cur ++ s)%string.
Proof.
  induction s as [| a s IH]; intros cur; simpl splitOn.
  - simpl. rewrite append_nil_r. reflexivity.
  - destruct (Ascii.eqb_spec a sep) as [-> | Ha].
    + specialize (IH EmptyString).
      destruct (splitOn sep EmptyString s) as [| t ts] eqn:E.
      * destruct (splitOn_counts sep s EmptyString eq_refl) as [Hl _].
        rewrite E in Hl. discriminate.
      * simpl String.concat. simpl String.concat in IH. rewrite IH. reflexivity.
    + rewrite IH, append_assoc. reflexivity.
Qed.

Lemma trimStart_first (s : string) :
  forall a, first_char (trimStart s) = Some a -> is_space a = false.
Proof.
  induction s as [| b s IH]; simpl; intros a H; [discriminate |].
  destruct (is_space b) eqn:Hb; [auto |]. injection H as <-. exact Hb.
Qed.

Lemma trimStart_count (c : ascii) (s : string) :
  (count_char c (trimStart s) <= count_char c s)%nat.
Proof.
  induction s as [| b s IH]; [reflexivity |]. simpl trimStart.
  destruct (is_space b); [rewrite count_char_cons; lia | reflexivity].
Qed.

Lemma trimEnd_first (s : string) :
  trimEnd s = EmptyString \/ first_char (trimEnd s) = first_char s.
Proof.
  destruct s as [| b s]; [auto |]. simpl.
  destruct (trimEnd s); [destruct (is_space b); auto | auto].
Qed.

Lemma trimEnd_last (s : string) :
  forall a, last_char (trimEnd s) = Some a -> is_space a = false.
Proof.
  induction s as [| b s IH]; simpl; intros a H; [discriminate |].
  destruct (trimEnd s) as [| c t] eqn:E.
  - destruct (is_space b) eqn:Hb; [discriminate |]. injection H as <-. exact Hb.
  - apply IH. exact H.
Qed.

Lemma trimEnd_count (c : ascii) (s : string) :
  (count_char c (trimEnd s) <= count_char c s)%nat.
Proof.
  induction s as [| b s IH]; [reflexivity |]. simpl trimEnd.
  rewrite count_char_cons.
  destruct (trimEnd s) as [| d t].
  - destruct (is_space b); [simpl; lia |]. rewrite count_char_cons. simpl. lia.
  - rewrite count_char_cons. lia.
Qed.

Lemma trim_trimmed (s : string) :
  (forall a, first_char (trim s) = Some a -> is_space a = false) /\
  (forall a, last_char (trim s) = Some a -> is_space a = false).
Proof.
  unfold trim. split; [| apply trimEnd_last].
  intros a H. destruct (trimEnd_first (trimStart s)) as [E | E].
  - rewrite E in H. discriminate.
  - rewrite E in H. apply (trimStart_first s), H.
Qed.

Lemma trim_id (s : string) :
  all_chars (fun a => negb (is_space a)) s = true -> trim s = s.
Proof.
  intros H. unfold trim.
  assert (E1 : trimStart s = s).
  { destruct s as [| a s]; [reflexivity |]. simpl in *.
    apply andb_true_iff in H as [Ha _].
    destruct (is_space a); [discriminate | reflexivity]. }
  rewrite E1. clear E1.
  induction s as [| a s IH]; [reflexivity |]. simpl in *.
  apply andb_true_iff in H as [Ha Hs]. rewrite (IH Hs).
  destruct s; [destruct (is_space a); [discriminate | reflexivity] | reflexivity].
Qed.

(** X19: every term that [splitTerms] returns is free of the colon and has
    no white space at its start or at its end, and there are at most as
    many terms as the line has colons, plus one. *)
Theorem splitTerms_terms (line : string) :
  Forall (fun term =>
            count_char ":" term = O /\
            (forall a, first_char term = Some a -> is_space a = false) /\
            (forall a, last_char term = Some a -> is_space a = false))
         (splitTerms line) /\
  (List.length (splitTerms line) <= S (count_char ":" line))%nat.
Proof.
  unfold splitTerms.
  destruct (splitOn_counts ":" line EmptyString eq_refl) as [Hl Hf].
  rewrite <- Hl. clear Hl.
  induction Hf as [| term terms Hterm _ [IH1 IH2]]; simpl; [auto |].
  destruct (String.eqb term " ").
  - split; [exact IH1 | lia].
  - split; [| simpl; lia]. constructor; [| exact IH1].
    split; [| apply trim_trimmed].
    unfold trim.
    pose proof (trimEnd_count ":" (trimStart term)).
    pose proof (trimStart_count ":" term). lia.
Qed.

Lemma splitTerms_terms_witness :
  Forall (fun term =>
            count_char ":" term = O /\
            (forall a, first_char term = Some a -> is_space a = false) /\
            (forall a, last_char term = Some a -> is_space a = false))
         (splitTerms "%Error: foo.sv:12: msg here ") /\
  (List.length (splitTerms "%Error: foo.sv:12: msg here ") <= 4)%nat.
Proof. apply (splitTerms_terms "%Error: foo.sv:12: msg here "). Defined.

Lemma all_chars_append (p : ascii -> bool) (s t : string) :
  all_chars p (s ++ t) = (all_chars p s && all_chars p t)%bool.
Proof.
  induction s as [| a s IH]; [reflexivity |].
  rewrite append_cons. simpl. rewrite IH, andb_assoc. reflexivity.
Qed.

Lemma splitOn_all_chars (p : ascii -> bool) (sep : ascii) (s : string) :
  forall cur,
    all_chars p cur = true -> all_chars p s = true ->
    Forall (fun t => all_chars p t = true) (splitOn sep cur s).
Proof.
  induction s as [| a s IH]; intros cur Hcur Hs; simpl splitOn; [auto |].
  simpl in Hs. apply andb_true_iff in Hs as [Ha Hs].
  destruct (Ascii.eqb a sep).
  - constructor; [exact Hcur |]. apply IH; [reflexivity | exact Hs].
  - apply IH; [| exact Hs]. rewrite all_chars_append, Hcur. simpl. rewrite Ha.
    reflexivity.
Qed.

(** X20: on a line without white space [splitTerms] is the plain split at
    the colons, and joining its terms with colons gives the line back. *)
Theorem splitTerms_join (line : string) :
  all_chars (fun a => negb (is_space a)) line = true ->
  splitTerms line = splitOn ":" EmptyString line /\
  String.concat ":" (splitTerms line) = line.
Proof.
  intros H.
  assert (E : splitTerms line = splitOn ":" EmptyString line).
  { unfold splitTerms.
    pose proof (splitOn_all_chars _ ":" line EmptyString eq_refl H) as Hf.
    induction Hf as [| term terms Hterm _ IH]; simpl; [reflexivity |].
    rewrite IH, (trim_id term Hterm).
    destruct (String.eqb_spec term " ") as [-> | _]; [discriminate | reflexivity]. }
  split; [exact E |]. rewrite E. apply (splitOn_join ":" line EmptyString).
Qed.

Lemma splitTerms_join_witness :
  splitTerms "%Error:foo.sv:12:msg" = splitOn ":" EmptyString "%Error:foo.sv:12:msg" /\
  String.concat ":" (splitTerms "%Error:foo.sv:12:msg") = "%Error:foo.sv:12:msg".
Proof. apply splitTerms_join. reflexivity. Defined.

(** *** Level and severity *)

(** X21: a header line that the pattern matches is handed to the sink,
    whether its visit then returns or fails on a range, and it is handed
    over as a warning exactly when its severity word is [Warning]; the
    diagnostic built for it then has the severity [Warning], and a
    diagnostic of severity [Error] always belongs to a line that was
    handed over as an error. *)
Theorem header_level_and_severity
    (isWindows : bool) (stderrLines : list string) (i : nat) (line : string)
    (st : State) (rex : result) (file : string) :
  startsWith "%" line = true ->
  exec errorParserRegex line = Some rex ->
  exists lv word,
    logOf (lintLine isWindows stderrLines i line st) = logged st ++ [(lv, line)] /\
    group rex "severity" = Some word /\
    (lv = LogWarn <-> word = "Warning") /\
    let d := diagnosticOf stderrLines i rex file in
    (lv = LogWarn -> severity d = Warning) /\
    (severity d = Error -> lv = LogError).
Proof.
  intros Hp Hx.
  destruct (errorParser_groups line rex Hx) as [[word Hw] _].
  assert (Hsev : severity (diagnosticOf stderrLines i rex file) = convertToSeverity word).
  { unfold diagnosticOf, mainMessageDiag. cbn [severity]. rewrite Hw. reflexivity. }
  set (lv := if decide (word = "Warning") then LogWarn else LogError).
  assert (Hrun : logOf (lintLine isWindows stderrLines i line st)
                 = logged st ++ [(lv, line)]).
  { unfold lintLine. rewrite Hp, Hx. simpl negb. cbv iota. rewrite Hw. unfold lv.
    destruct (decide (Some word = Some "Error")) as [E | NE];
      [| destruct (decide (Some word = Some "Warning")) as [E | NW]].
    - injection E as ->.
      destruct (truthy (group rex "filePath"));
        [destruct (structured _ _ _ _ _) |]; reflexivity.
    - injection E as ->.
      destruct (truthy (group rex "filePath"));
        [destruct (structured _ _ _ _ _) |]; reflexivity.
    - destruct (decide (word = "Warning")) as [-> | _]; [congruence |].
      destruct (truthy (group rex "filePath"));
        [destruct (structured _ _ _ _ _) |]; reflexivity. }
  exists lv, word. split; [exact Hrun |].
  split; [exact Hw |]. cbv zeta. rewrite Hsev. unfold lv.
  destruct (decide (word = "Warning")) as [-> | NW].
  - split; [tauto |]. split; [reflexivity | discriminate].
  - split; [split; [discriminate | contradiction] |].
    split; [discriminate | reflexivity].
Qed.

Lemma header_level_and_severity_witness :
  exists rex lv word,
    exec errorParserRegex "%Warning-WIDTH: top.sv:0:3: Width mismatch" = Some rex /\
    lintLine false ["%Warning-WIDTH: top.sv:0:3: Width mismatch"] 0
      "%Warning-WIDTH: top.sv:0:3: Width mismatch" (mkState [] ∅)
      = IllegalArgument [(LogWarn, "%Warning-WIDTH: top.sv:0:3: Width mismatch")] /\
    logOf (lintLine false ["%Warning-WIDTH: top.sv:0:3: Width mismatch"] 0
             "%Warning-WIDTH: top.sv:0:3: Width mismatch" (mkState [] ∅))
      = [] ++ [(lv, "%Warning-WIDTH: top.sv:0:3: Width mismatch")] /\
    group rex "severity" = Some word /\
    (lv = LogWarn <-> word = "Warning") /\
    let d := diagnosticOf ["%Warning-WIDTH: top.sv:0:3: Width mismatch"] 0 rex "top.sv" in
    (lv = LogWarn -> severity d = Warning) /\
    (severity d = Error -> lv = LogError).
Proof.
  eexists.
  assert (E : forall rex,
            exec errorParserRegex "%Warning-WIDTH: top.sv:0:3: Width mismatch" = Some rex ->
            exists lv word,
              exec errorParserRegex "%Warning-WIDTH: top.sv:0:3: Width mismatch" = Some rex /\
              lintLine false ["%Warning-WIDTH: top.sv:0:3: Width mismatch"] 0
                "%Warning-WIDTH: top.sv:0:3: Width mismatch" (mkState [] ∅)
                = IllegalArgument [(LogWarn, "%Warning-WIDTH: top.sv:0:3: Width mismatch")] /\
              logOf (lintLine false ["%Warning-WIDTH: top.sv:0:3: Width mismatch"] 0
                       "%Warning-WIDTH: top.sv:0:3: Width mismatch" (mkState [] ∅))
                = [] ++ [(lv, "%Warning-WIDTH: top.sv:0:3: Width mismatch")] /\
              group rex "severity" = Some word /\
              (lv = LogWarn <-> word = "Warning") /\
              let d := diagnosticOf ["%Warning-WIDTH: top.sv:0:3: Width mismatch"] 0 rex "top.sv" in
              (lv = LogWarn -> severity d = Warning) /\
              (severity d = Error -> lv = LogError)).
  { intros rex Hx.
    destruct (header_level_and_severity false
                ["%Warning-WIDTH: top.sv:0:3: Width mismatch"] 0
                "%Warning-WIDTH: top.sv:0:3: Width mismatch" (mkState [] ∅) rex "top.sv"
                eq_refl Hx) as (lv & word & H).
    exists lv, word. split; [exact Hx |]. split; [vm_compute; reflexivity | exact H]. }
  apply E. vm_compute. reflexivity.
Defined.
End Extra.
